(** * The publish/subscribe dispatcher of [openmdao.Model] (Model.js)

    A shallow embedding of the private state of [openmdao.Model]
    ([subscribers], [outstream_socket], [publisher_socket]), of
    [open_websocket], [open_outstream_socket], [open_publisher_socket],
    [addListener] and [updateListeners], and of the browser events that
    drive them (answers to the address lookups, frames on the sockets).

    Subscriber callbacks are opaque to the dispatcher.  They are named by a
    number, and the section variable [throws] says whether a call of a
    callback with given arguments ends in an exception.  Callbacks are taken
    not to call back into the dispatcher while a fan-out is running and not
    to assign the globals [i] and [topic] of Model.js.

    The page is taken to hold one instance of [openmdao.Model] (the
    functions [open_websocket], [open_outstream_socket] and
    [open_publisher_socket] are assigned without [var], so that a second
    instance would redefine them for the first), to have loaded jQuery and
    the [debug] logger, whose calls return except for [jQuery.parseJSON],
    and to receive text frames on its sockets.  Calls of [debug.info] are
    left out of the traces.

    The request/response methods ([getTypes] to [exit]) are embedded as
    functions from their arguments to the requests they hand to
    [jQuery.ajax], and [respond] gives what the handlers that Model.js
    defines for the answers do. *)

From Stdlib Require Import String Ascii List Bool Arith NArith ZArith Lia.
Import ListNotations.
Local Open Scope string_scope.
Local Open Scope list_scope.

(** ** Values *)

(** The JavaScript values that can sit in a subscriber list. *)
Inductive value : Type :=
| VUndefined
| VNull
| VBoolean (b : bool)
| VNumber (n : Z)
| VString (s : string)
| VFunction (f : nat).

(** [typeof v === 'function'] *)
Definition is_function (v : value) : bool :=
  match v with
  | VFunction _ => true
  | _ => false
  end.

(** Exceptions that the modelled code can raise. *)
Inductive exn : Type :=
| TypeError                 (* a property read or a call on undefined *)
| ReferenceError            (* an identifier that resolves nowhere *)
| InvalidJSON               (* raised by jQuery.parseJSON *)
| Raised (f : nat).         (* raised by the body of callback [f] *)

Inductive completion : Type :=
| Normal
| Throw (e : exn).

(** The two message handlers that [open_websocket] can be given.
    [handle_output] is a closure over the parameter [topic] of
    [open_outstream_socket]. *)
Inductive handler : Type :=
| HandleOutput (topic : string)
| HandleMessage.

(** What the dispatcher does to the outside, in the order it does it. *)
Inductive event : Type :=
(* callbacks[i](...) *)
| Call (f : nat) (args : list value)
(* debug.error('Model: invalid callback ...', topic, callbacks[i]) *)
| DebugError (topic : string) (entry : value)
(* jQuery.ajax({type: 'GET', url: url, ...}) of open_websocket *)
| Get (url : string)
(* new WebSocket(addr) *)
| NewWebSocket (addr : string)
(* debug.error('Error getting websocket ...') *)
| LookupError (url : string).

(** ** The object [subscribers] *)

(** [subscribers] starts as the literal [{}]: its own properties are the
    topics, kept here in the order of their creation, each holding an
    array of registered entries.  Behind them is [Object.prototype].  The
    order in which [for (topic in subscribers)] visits the topics is not
    the order of creation: it is given by [for_in] below. *)
Definition registry : Type := list (string * list value).

Fixpoint lookup {A : Type} (l : list (string * A)) (k : string) : option A :=
  match l with
  | [] => None
  | (k', a) :: l' => if k' =? k then Some a else lookup l' k
  end.

(** The properties every object literal inherits, each with the value of
    its [length] property (0 where it has none): the ones of ECMAScript 5,
    15.2.4, and the legacy accessors of the browsers that have WebSocket. *)
Definition Object_prototype : list (string * nat) :=
  [ ("constructor", 1); ("toString", 0); ("toLocaleString", 0);
    ("valueOf", 0); ("hasOwnProperty", 1); ("isPrototypeOf", 1);
    ("propertyIsEnumerable", 1); ("__proto__", 0);
    ("__defineGetter__", 2); ("__defineSetter__", 2);
    ("__lookupGetter__", 1); ("__lookupSetter__", 1) ].

Definition inherited (k : string) : bool :=
  match lookup Object_prototype k with
  | Some _ => true
  | None => false
  end.

(** [k in o] *)
Definition has_property (o : registry) (k : string) : bool :=
  match lookup o k with
  | Some _ => true
  | None => inherited k
  end.

(** The result of reading [o[k]]. *)
Inductive property : Type :=
| Array (elems : list value)   (* an own property: the topic's array *)
| Builtin (length : nat)       (* found on Object.prototype *)
| Undefined.

Definition get (o : registry) (k : string) : property :=
  match lookup o k with
  | Some l => Array l
  | None =>
      match lookup Object_prototype k with
      | Some n => Builtin n
      | None => Undefined
      end
  end.

(** What a loop [for (i = 0; i < callbacks.length; i++)] reads as
    [callbacks[i]]: the elements of an array; [undefined], [length] times,
    on a builtin; nothing when [callbacks] is [undefined], where reading
    [callbacks.length] raises a TypeError. *)
Definition elements (p : property) : option (list value) :=
  match p with
  | Array l => Some l
  | Builtin n => Some (repeat VUndefined n)
  | Undefined => None
  end.

(** [o[k].push(v)] for an own property [k]. *)
Fixpoint push (o : registry) (k : string) (v : value) : registry :=
  match o with
  | [] => []
  | (k', l) :: o' =>
      if k' =? k then (k', l ++ [v]) :: o' else (k', l) :: push o' k v
  end.

(** [o[k] = [ v ]] for a [k] that is not yet an own property. *)
Definition create (o : registry) (k : string) (v : value) : registry :=
  o ++ [(k, [v])].

(** The number that a property name denotes when it is an array index:
    the decimal digits of a number up to 4294967294, with no leading zero
    and nothing else. *)
Definition digit (c : ascii) : option N :=
  let n := N_of_ascii c in
  if ((48 <=? n) && (n <=? 57))%N then Some (n - 48)%N else None.

Fixpoint decimal (acc : N) (s : string) : option N :=
  match s with
  | EmptyString => Some acc
  | String c s' =>
      match digit c with
      | Some d => decimal (10 * acc + d)%N s'
      | None => None
      end
  end.

Definition array_index (k : string) : option N :=
  match k with
  | EmptyString => None
  | String c rest =>
      if (c =? "0")%char && negb (rest =? "") then None
      else
        match decimal 0 k with
        | Some n => if (n <=? 4294967294)%N then Some n else None
        | None => None
        end
  end.

(** The order of [for (topic in o)]: the properties whose name is an
    array index come first, by ascending number, and the other properties
    follow in the order of their creation.  [Object.prototype] has no
    enumerable property. *)
Fixpoint insert_entry (e : string * list value) (n : N) (l : registry)
  : registry :=
  match l with
  | [] => [e]
  | e' :: l' =>
      match array_index (fst e') with
      | Some m => if (n <? m)%N then e :: l else e' :: insert_entry e n l'
      | None => e :: l
      end
  end.

Fixpoint integer_keys (o : registry) : registry :=
  match o with
  | [] => []
  | e :: o' =>
      match array_index (fst e) with
      | Some n => insert_entry e n (integer_keys o')
      | None => integer_keys o'
      end
  end.

Definition string_keys (o : registry) : registry :=
  filter (fun e => match array_index (fst e) with
                   | Some _ => false
                   | None => true
                   end) o.

Definition for_in (o : registry) : registry :=
  integer_keys o ++ string_keys o.

(** [message[0]] as a property key, for a primitive string [message]: its
    first character, or [undefined] (converted to a key) when it is
    empty. *)
Definition index0 (message : string) : string :=
  match message with
  | EmptyString => "undefined"
  | String c _ => String c EmptyString
  end.

(** ** The private state of [openmdao.Model] and of the page around it *)

Definition outstream_topic : string := "outstream".

Record state : Type := mkState {
  subscribers : registry;
  outstream_socket : bool;
  publisher_socket : bool;
  (* the global variable [topic], which exists once
     [for (topic in subscribers)] of updateListeners has assigned it *)
  topic_global : option string;
  (* jQuery.ajax requests of open_websocket not answered yet *)
  pending : list (string * handler);
  (* the WebSockets created, each with the handler its onmessage calls *)
  sockets : list (string * handler)
}.

(** The state when [new openmdao.Model()] returns. *)
Definition initial : state :=
  mkState [] false false None [] [].

Definition set_subscribers (s : state) (o : registry) : state :=
  mkState o (outstream_socket s) (publisher_socket s) (topic_global s)
          (pending s) (sockets s).

Definition set_outstream_socket (s : state) (b : bool) : state :=
  mkState (subscribers s) b (publisher_socket s) (topic_global s)
          (pending s) (sockets s).

Definition set_publisher_socket (s : state) (b : bool) : state :=
  mkState (subscribers s) (outstream_socket s) b (topic_global s)
          (pending s) (sockets s).

Definition set_topic_global (s : state) (t : option string) : state :=
  mkState (subscribers s) (outstream_socket s) (publisher_socket s) t
          (pending s) (sockets s).

Definition set_pending (s : state) (p : list (string * handler)) : state :=
  mkState (subscribers s) (outstream_socket s) (publisher_socket s)
          (topic_global s) p (sockets s).

Definition set_sockets (s : state) (w : list (string * handler)) : state :=
  mkState (subscribers s) (outstream_socket s) (publisher_socket s)
          (topic_global s) (pending s) w.

(** The calls and browser events that reach the dispatcher.  The
    request/response methods of Model.js (newModel, setFile, ...) reach it
    only through [updateListeners]. *)
Inductive op : Type :=
| AddListener (topic : string) (callback : value)
| UpdateListeners
(* success(addr) of the k-th pending request *)
| LookupSuccess (k : nat) (addr : string)
(* error(...) of the k-th pending request *)
| LookupFailure (k : nat)
(* onmessage of the k-th socket, with e.data = data *)
| SocketMessage (k : nat) (data : string).

Definition remove_nth {A : Type} (k : nat) (l : list A) : list A :=
  firstn k l ++ skipn (S k) l.

(** The text [["foo", 42]] of a frame on the publisher channel. *)
Definition quote : string := String "034"%char EmptyString.
Definition foo_frame : string := "[" ++ quote ++ "foo" ++ quote ++ ", 42]".

(** ** The request/response methods of [openmdao.Model]

    Strings are sequences of character codes below 256.  The arguments
    that the methods concatenate into an address or a command are taken to
    be strings; an argument that a method tests for truth may be left out
    ([None]). *)

Definition backslash : ascii := "092"%char.
Definition newline : ascii := "010"%char.
Definition carriage_return : ascii := "013"%char.

Fixpoint map_chars (f : ascii -> ascii) (s : string) : string :=
  match s with
  | EmptyString => EmptyString
  | String c s' => String (f c) (map_chars f s')
  end.

(** [s.replace(/\\/g,'/')] *)
Definition slashes (s : string) : string :=
  map_chars (fun c => if (c =? backslash)%char then "/"%char else c) s.

(** [s.replace(/\\/g,'.').replace(/\//g,'.')] *)
Definition dots (s : string) : string :=
  map_chars (fun c => if (c =? "/")%char then "."%char else c)
            (map_chars (fun c => if (c =? backslash)%char then "."%char
                                 else c) s).

(** [s.replace(/\.py$/g,'')]: the pattern matches at the end of [s] only. *)
Fixpoint strip_py (s : string) : string :=
  match s with
  | EmptyString => EmptyString
  | String c s' =>
      if String c s' =? ".py" then EmptyString else String c (strip_py s')
  end.

(** [.] in a regular expression: any character but a line terminator. *)
Definition any_char (c : ascii) : bool :=
  negb ((c =? newline)%char || (c =? carriage_return)%char).

(** [/.py$/.test(name)] for [suffix = "py"], [/.json$/.test(name)] for
    [suffix = "json"]: the dot is not escaped. *)
Fixpoint test_any_then (suffix name : string) : bool :=
  match name with
  | EmptyString => false
  | String c rest =>
      (any_char c && (rest =? suffix)) || test_any_then suffix rest
  end.

(** [/driver/.test(typepath)] for [pattern = "driver"]. *)
Fixpoint contains (pattern s : string) : bool :=
  prefix pattern s ||
  match s with
  | EmptyString => false
  | String _ s' => contains pattern s'
  end.

(** [data.replace('\n','\\n')]: a pattern that is a string replaces its
    first occurrence only. *)
Fixpoint escape_newline (data : string) : string :=
  match data with
  | EmptyString => EmptyString
  | String c rest =>
      if (c =? newline)%char then String backslash (String "n" rest)
      else String c (escape_newline rest)
  end.

(** The [path] of [execFile]:
<<
    var path = filepath.replace(/\\/g,'/')
    if (path[0] == '/') path = path.substring(1,path.length)
>> *)
Definition exec_path (filepath : string) : string :=
  match slashes filepath with
  | EmptyString => EmptyString
  | String c rest => if (c =? "/")%char then rest else String c rest
  end.

(** The first lines of a Python file: three double quotes, the name on
    a line of its own after three spaces, three double quotes, and an empty
    line. *)
Definition python_header (name : string) : string :=
  (quote ++ quote ++ quote ++ String newline "   " ++ name
     ++ String newline (quote ++ quote ++ quote)
     ++ String newline (String newline EmptyString))%string.

(** The [contents] that [newFile] gives to a file called [name]. *)
Definition new_file_contents (name : string) : string :=
  let contents := EmptyString in
  let contents :=
    if test_any_then "py" name then python_header name else contents in
  if test_any_then "json" name then "[]" else contents.

(** [if (folderpath) name = folderpath+'/'+name] *)
Definition in_folder (folderpath : option string) (name : string) : string :=
  match folderpath with
  | None | Some EmptyString => name
  | Some f => (f ++ "/" ++ name)%string
  end.

Inductive http : Type := GET | POST | DELETE.

(** What a [success] or [error] member of the settings of [jQuery.ajax]
    does when jQuery calls it. *)
Inductive reaction : Type :=
(* a parameter of the method, handed to jQuery as it is; [undefined]
   where the settings have no such member *)
| Given (h : value)
(* self.updateListeners *)
| Refresh
(* function(text) { if (typeof callback == 'function') { callback(text) };
                    self.updateListeners() } *)
| CallbackThenRefresh (callback : value)
(* function(text) { if (typeof callback == 'function') { callback(text) } } *)
| CallbackOnly (callback : value)
(* function(...) { debug.warn(...); self.updateListeners() } *)
| WarnThenRefresh
(* function(data, ...) { self.issueCommand('print ...') } *)
| PrintOutput
(* function(...) { debug.error(...); debug.error(...) } *)
| LogFailure.

(** The settings object of a call of [jQuery.ajax]; [type] is [None] where
    the settings name none, [data] is empty where they name none. *)
Record request : Type := mkRequest {
  type : option http;
  url : string;
  dataType : option string;
  data : list (string * value);
  success : reaction;
  error : reaction
}.

(** The two functions handed to [openmdao.Util.promptForValue]. *)
Inductive prompt : Type :=
| NewFile (folderpath : option string)
| NewFolder (folderpath : option string).

(** What a method does to the outside. *)
Inductive action : Type :=
| Ajax (r : request)                          (* jQuery.ajax(r) *)
| UtilCall (name : string)                    (* openmdao.Util[name]() *)
| PromptForValue (label : string) (k : prompt)
| PopupWindow (name title : string) (h w : nat).

Definition getTypes (callback errorHandler : value) : list action :=
  if negb (is_function callback) then []
  else [Ajax (mkRequest (Some GET) "types" (Some "json") []
                        (Given callback) (Given errorHandler))].

Definition newModel : list action :=
  [Ajax (mkRequest (Some POST) "model" None [] Refresh (Given VUndefined))].

Definition saveProject : list action :=
  [Ajax (mkRequest (Some POST) "project" None [] Refresh (Given VUndefined))].

Definition getWorkflow (pathname : string) (callback errorHandler : value)
  : list action :=
  if negb (is_function callback) then []
  else [Ajax (mkRequest (Some GET) ("workflow/" ++ pathname) (Some "json") []
                        (Given callback) (Given errorHandler))].

Definition getStructure (pathname : option string)
           (callback errorHandler : value) : list action :=
  if negb (is_function callback) then []
  else
    let pathname := match pathname with Some p => p | None => "" end in
    [Ajax (mkRequest (Some GET) ("structure/" ++ pathname) (Some "json") []
                     (Given callback) (Given errorHandler))].

Definition getComponents (callback errorHandler : value) : list action :=
  if negb (is_function callback) then []
  else [Ajax (mkRequest (Some GET) "components" (Some "json") []
                        (Given callback) (Given errorHandler))].

Definition getComponent (name : string) (callback errorHandler : value)
  : list action :=
  if negb (is_function callback) then []
  else [Ajax (mkRequest (Some GET) ("component/" ++ name) (Some "json") []
                        (Given callback) (Given errorHandler))].

Definition getConnections (pathname : string) (src_name dst_name : value)
           (callback errorHandler : value) : list action :=
  if negb (is_function callback) then []
  else [Ajax (mkRequest (Some GET) ("connections/" ++ pathname) (Some "json")
                        [("src_name", src_name); ("dst_name", dst_name)]
                        (Given callback) (Given errorHandler))].

Definition setConnections (pathname : string)
           (src_name dst_name connections : value)
           (callback errorHandler : value) : list action :=
  [Ajax (mkRequest (Some POST) ("connections/" ++ pathname) (Some "json")
                   [("src_name", src_name); ("dst_name", dst_name);
                    ("connections", connections)]
                   (Given callback) (Given errorHandler))].

(** [has_util name] says whether [openmdao.Util[name]] is there
    ([openmdao.Util] is not part of Model.js). *)
Definition addComponent (has_util : string -> bool) (typepath name : string)
           (parent : option string) (callback : value) : list action :=
  let parent := match parent with Some p => p | None => "" end in
  if contains "driver" typepath && has_util ("$" ++ name)%string
  then [UtilCall ("$" ++ name)]
  else [Ajax (mkRequest (Some POST) ("component/" ++ name) None
                        [("type", VString typepath); ("parent", VString parent)]
                        (CallbackThenRefresh callback) (Given VUndefined))].

Definition issueCommand (cmd : string) (callback errorHandler : value)
  : list action :=
  [Ajax (mkRequest (Some POST) "command" None [("command", VString cmd)]
                   (CallbackThenRefresh callback) (Given errorHandler))].

Definition getOutput (callback errorHandler : value) : list action :=
  [Ajax (mkRequest None "output" None []
                   (CallbackOnly callback) (Given errorHandler))].

Definition getFiles (callback errorHandler : value) : list action :=
  if negb (is_function callback) then []
  else [Ajax (mkRequest (Some GET) "files" (Some "json") []
                        (Given callback) (Given errorHandler))].

Definition getFile (filepath : string) (callback errorHandler : value)
  : list action :=
  if negb (is_function callback) then []
  else [Ajax (mkRequest (Some GET) ("file" ++ slashes filepath) (Some "text")
                        [] (Given callback) (Given errorHandler))].

Definition setFile (filepath contents : string) (errorHandler : value)
  : list action :=
  [Ajax (mkRequest (Some POST) ("file/" ++ slashes filepath) None
                   [("contents", VString contents)]
                   Refresh (Given errorHandler))].

Definition createFolder (folderpath : string) (errorHandler : value)
  : list action :=
  [Ajax (mkRequest (Some POST) ("file/" ++ slashes folderpath) None
                   [("isFolder", VBoolean true)]
                   Refresh (Given errorHandler))].

Definition newFile (folderpath : option string) : list action :=
  [PromptForValue "Specify a name for the new file" (NewFile folderpath)].

Definition newFolder (folderpath : option string) : list action :=
  [PromptForValue "Specify a name for the new folder" (NewFolder folderpath)].

(** The function handed to [promptForValue], called with the [name] that
    the user has typed. *)
Definition answer (k : prompt) (name : string) : list action :=
  match k with
  | NewFile folderpath =>
      let name := in_folder folderpath name in
      setFile name (new_file_contents name) VUndefined
  | NewFolder folderpath =>
      createFolder (in_folder folderpath name) VUndefined
  end.

Definition uploadFile : list action :=
  [PopupWindow "upload" "Add File" 150 400].

Definition removeFile (filepath : string) : list action :=
  [Ajax (mkRequest (Some DELETE) ("file" ++ slashes filepath) None
                   [("file", VString filepath)] Refresh WarnThenRefresh)].

Definition importFile (filepath : string) (callback errorHandler : value)
  : list action :=
  let path := dots (strip_py filepath) in
  issueCommand ("from " ++ path ++ " import *") callback errorHandler.

Definition runModel : list action :=
  [Ajax (mkRequest (Some POST) "exec" None [] PrintOutput LogFailure)].

Definition execFile (filepath : string) : list action :=
  let path := exec_path filepath in
  [Ajax (mkRequest (Some POST) "exec" None [("filename", VString path)]
                   Refresh (Given VUndefined))].

Definition exit : list action :=
  [Ajax (mkRequest (Some POST) "exit" None []
                   (Given VUndefined) (Given VUndefined))].

(** The calls of the request/response methods. *)
Inductive call : Type :=
| GetTypes (callback errorHandler : value)
| NewModel
| SaveProject
| GetWorkflow (pathname : string) (callback errorHandler : value)
| GetStructure (pathname : option string) (callback errorHandler : value)
| GetComponents (callback errorHandler : value)
| GetComponent (name : string) (callback errorHandler : value)
| GetConnections (pathname : string) (src_name dst_name : value)
                 (callback errorHandler : value)
| SetConnections (pathname : string) (src_name dst_name connections : value)
                 (callback errorHandler : value)
| AddComponent (typepath name : string) (parent : option string)
               (callback : value)
| IssueCommand (cmd : string) (callback errorHandler : value)
| GetOutput (callback errorHandler : value)
| GetFiles (callback errorHandler : value)
| GetFile (filepath : string) (callback errorHandler : value)
| SetFile (filepath contents : string) (errorHandler : value)
| CreateFolder (folderpath : string) (errorHandler : value)
| NewFileIn (folderpath : option string)
| NewFolderIn (folderpath : option string)
| UploadFile
| RemoveFile (filepath : string)
| ImportFile (filepath : string) (callback errorHandler : value)
| RunModel
| ExecFile (filepath : string)
| Exit.

Definition perform (has_util : string -> bool) (c : call) : list action :=
  match c with
  | GetTypes callback errorHandler => getTypes callback errorHandler
  | NewModel => newModel
  | SaveProject => saveProject
  | GetWorkflow pathname callback errorHandler =>
      getWorkflow pathname callback errorHandler
  | GetStructure pathname callback errorHandler =>
      getStructure pathname callback errorHandler
  | GetComponents callback errorHandler => getComponents callback errorHandler
  | GetComponent name callback errorHandler =>
      getComponent name callback errorHandler
  | GetConnections pathname src_name dst_name callback errorHandler =>
      getConnections pathname src_name dst_name callback errorHandler
  | SetConnections pathname src_name dst_name connections callback
                   errorHandler =>
      setConnections pathname src_name dst_name connections callback
                     errorHandler
  | AddComponent typepath name parent callback =>
      addComponent has_util typepath name parent callback
  | IssueCommand cmd callback errorHandler =>
      issueCommand cmd callback errorHandler
  | GetOutput callback errorHandler => getOutput callback errorHandler
  | GetFiles callback errorHandler => getFiles callback errorHandler
  | GetFile filepath callback errorHandler =>
      getFile filepath callback errorHandler
  | SetFile filepath contents errorHandler =>
      setFile filepath contents errorHandler
  | CreateFolder folderpath errorHandler =>
      createFolder folderpath errorHandler
  | NewFileIn folderpath => newFile folderpath
  | NewFolderIn folderpath => newFolder folderpath
  | UploadFile => uploadFile
  | RemoveFile filepath => removeFile filepath
  | ImportFile filepath callback errorHandler =>
      importFile filepath callback errorHandler
  | RunModel => runModel
  | ExecFile filepath => execFile filepath
  | Exit => exit
  end.

(** Runs used in the examples below. *)
Definition bracket_run : list op :=
  [ AddListener "status" (VFunction 3); AddListener "[" (VFunction 1);
    UpdateListeners; AddListener "[" (VFunction 0);
    AddListener "[" (VFunction 1) ].

Definition outstream_run : list op :=
  [ AddListener "status" (VFunction 3); UpdateListeners;
    AddListener outstream_topic (VFunction 0);
    LookupSuccess 1 "ws://localhost/out";
    AddListener outstream_topic (VFunction 1); SocketMessage 0 "line" ].

Definition idle_run : list op :=
  [ UpdateListeners; LookupSuccess 1 "ws://localhost/out";
    SocketMessage 0 "line"; LookupFailure 1; UpdateListeners ].

Definition mixed_run : list op :=
  [ AddListener outstream_topic (VFunction 0);
    AddListener outstream_topic (VNumber 42);
    AddListener outstream_topic (VFunction 1);
    AddListener "status" (VFunction 2);
    LookupSuccess 1 "ws://localhost/pub" ].

Definition index_run : list op :=
  [ AddListener "status" (VFunction 3); AddListener "1" (VNumber 42);
    AddListener "1" (VFunction 0); AddListener "1" (VFunction 1) ].

Definition refresh_run : list op :=
  [ AddListener "status" (VFunction 3);
    AddListener outstream_topic (VFunction 0);
    AddListener "10" (VFunction 2); AddListener "9" (VFunction 1) ].

(** Oracles used in the examples below. *)
Definition never_throws : nat -> list value -> bool := fun _ _ => false.
Definition zero_throws : nat -> list value -> bool :=
  fun f _ => Nat.eqb f 0.
Definition any_text_parses : string -> bool := fun _ => false.

Section Dispatcher.

(** Whether the body of callback [f], called with [args], raises. *)
Variable throws : nat -> list value -> bool.

(** Whether [jQuery.parseJSON] raises on a text (jQuery is not part of
    Model.js). *)
Variable parseJSON_throws : string -> bool.

(** The loop shared by the three fan-outs:
<<
    for (i = 0; i < callbacks.length; i++) {
        if (typeof callbacks[i] === 'function') { callbacks[i](args); }
        else { debug.error('Model: invalid ...',topic,callbacks[i]); }
    }
>>
    [topic] is what the identifier [topic] resolves to at the loop: [None]
    when it resolves nowhere, in which case evaluating the arguments of
    [debug.error] raises a ReferenceError. *)
Fixpoint invoke_all (topic : option string) (args : list value)
         (callbacks : list value) : completion * list event :=
  match callbacks with
  | [] => (Normal, [])
  | VFunction f :: rest =>
      if throws f args then (Throw (Raised f), [Call f args])
      else
        let '(c, tr) := invoke_all topic args rest in
        (c, Call f args :: tr)
  | entry :: rest =>
      match topic with
      | None => (Throw ReferenceError, [])
      | Some t =>
          let '(c, tr) := invoke_all topic args rest in
          (c, DebugError t entry :: tr)
      end
  end.

(** [handle_output(data)] of [open_outstream_socket(topic)]. *)
Definition handle_output (topic : string) (data : string) (s : state)
  : completion * list event :=
  match elements (get (subscribers s) topic) with
  | None => (Throw TypeError, [])
  | Some callbacks => invoke_all (Some topic) [VString data] callbacks
  end.

(** [handle_message(message)] of [open_publisher_socket()].  [message] is
    [e.data] of a text frame, a primitive string: the assignment
    [message[0] = 'prob.'+message[0]] leaves it as it is, and [message[0]]
    reads its first character.  The identifier [topic] in the call of
    [debug.error] is bound neither in [handle_message] nor in
    [open_publisher_socket] nor in [openmdao.Model]: it is the global. *)
Definition handle_message (message : string) (s : state)
  : completion * list event :=
  if parseJSON_throws message then (Throw InvalidJSON, [])
  else
    match elements (get (subscribers s) (index0 message)) with
    | None => (Normal, [])
    | Some callbacks =>
        invoke_all (topic_global s) [VString message] callbacks
    end.

(** [open_websocket(url, message_handler)]: the request is sent; its
    answer comes later, as [LookupSuccess] or [LookupFailure]. *)
Definition open_websocket (url : string) (message_handler : handler)
           (s : state) : state * list event :=
  (set_pending s (pending s ++ [(url, message_handler)]), [Get url]).

Definition open_outstream_socket (topic : string) (s : state)
  : state * list event :=
  open_websocket "outstream" (HandleOutput topic) s.

Definition open_publisher_socket (s : state) : state * list event :=
  open_websocket "pubstream" HandleMessage s.

(** [this.addListener = function(topic, callback)] *)
Definition addListener (topic : string) (callback : value) (s : state)
  : completion * state * list event :=
  if has_property (subscribers s) topic then
    match get (subscribers s) topic with
    | Array _ =>
        (Normal, set_subscribers s (push (subscribers s) topic callback), [])
    | _ => (Throw TypeError, s, [])     (* no [push] on what was read *)
    end
  else
    let s1 := set_subscribers s (create (subscribers s) topic callback) in
    let '(s2, tr2) :=
      if (topic =? outstream_topic) && negb (outstream_socket s1)
      then open_outstream_socket outstream_topic (set_outstream_socket s1 true)
      else (s1, []) in
    let '(s3, tr3) :=
      if negb (publisher_socket s2)
      then open_publisher_socket (set_publisher_socket s2 true)
      else (s2, []) in
    (Normal, s3, tr2 ++ tr3).

(** The body of [for (topic in subscribers)] over the topics still to
    visit, in the order of the visit; [g] is the value of the global
    [topic] so far. *)
Fixpoint update_loop (entries : registry) (g : option string)
  : completion * option string * list event :=
  match entries with
  | [] => (Normal, g, [])
  | (topic, callbacks) :: rest =>
      if topic =? outstream_topic then update_loop rest (Some topic)
      else
        match invoke_all (Some topic) [] callbacks with
        | (Normal, tr) =>
            let '(c, g', tr') := update_loop rest (Some topic) in
            (c, g', tr ++ tr')
        | (Throw e, tr) => (Throw e, Some topic, tr)
        end
  end.

(** [this.updateListeners = function()] *)
Definition updateListeners (s : state) : completion * state * list event :=
  let '(c, g, tr) := update_loop (for_in (subscribers s)) (topic_global s) in
  (c, set_topic_global s g, tr).

(** The [success] function of [open_websocket]. *)
Definition lookup_success (k : nat) (addr : string) (s : state)
  : completion * state * list event :=
  match nth_error (pending s) k with
  | None => (Normal, s, [])
  | Some (_, h) =>
      (Normal,
       set_sockets (set_pending s (remove_nth k (pending s)))
                   (sockets s ++ [(addr, h)]),
       [NewWebSocket addr])
  end.

(** The [error] function of [open_websocket]. *)
Definition lookup_failure (k : nat) (s : state)
  : completion * state * list event :=
  match nth_error (pending s) k with
  | None => (Normal, s, [])
  | Some (url, _) =>
      (Normal, set_pending s (remove_nth k (pending s)), [LookupError url])
  end.

(** [socket.onmessage = function(e) { message_handler(e.data); }] *)
Definition socket_message (k : nat) (data : string) (s : state)
  : completion * state * list event :=
  match nth_error (sockets s) k with
  | None => (Normal, s, [])
  | Some (_, HandleOutput topic) =>
      let '(c, tr) := handle_output topic data s in (c, s, tr)
  | Some (_, HandleMessage) =>
      let '(c, tr) := handle_message data s in (c, s, tr)
  end.

Definition step (o : op) (s : state) : completion * state * list event :=
  match o with
  | AddListener topic callback => addListener topic callback s
  | UpdateListeners => updateListeners s
  | LookupSuccess k addr => lookup_success k addr s
  | LookupFailure k => lookup_failure k s
  | SocketMessage k data => socket_message k data s
  end.

(** A run of the page: each call or event is a task of its own, and an
    exception that escapes one ends that task only. *)
Fixpoint run (ops : list op) (s : state) : state * list event :=
  match ops with
  | [] => (s, [])
  | o :: ops' =>
      let '(_, s1, tr1) := step o s in
      let '(s2, tr2) := run ops' s1 in
      (s2, tr1 ++ tr2)
  end.

(** What happens when jQuery calls the member [r] of the settings of a
    request, for a response with body [text] (taken to be text): the
    completion, the state, the trace, and what is sent in turn.  A member
    that is a parameter of the method runs no code of Model.js. *)
Definition respond (r : reaction) (text : string) (s : state)
  : completion * state * list event * list action :=
  match r with
  | Given _ => (Normal, s, [], [])
  | Refresh | WarnThenRefresh =>
      let '(c, s', tr) := updateListeners s in (c, s', tr, [])
  | CallbackThenRefresh (VFunction f) =>
      if throws f [VString text]
      then (Throw (Raised f), s, [Call f [VString text]], [])
      else
        let '(c, s', tr) := updateListeners s in
        (c, s', Call f [VString text] :: tr, [])
  | CallbackThenRefresh _ =>
      let '(c, s', tr) := updateListeners s in (c, s', tr, [])
  | CallbackOnly (VFunction f) =>
      (if throws f [VString text] then Throw (Raised f) else Normal,
       s, [Call f [VString text]], [])
  | CallbackOnly _ => (Normal, s, [], [])
  | PrintOutput =>
      (Normal, s, [],
       issueCommand ("print " ++ quote ++ escape_newline text ++ quote)
                    VUndefined VUndefined)
  | LogFailure => (Normal, s, [], [])
  end.

(** The addresses looked up, the calls made and the warnings logged in a
    trace, each in the order of the trace. *)
Definition lookups (tr : list event) : list string :=
  flat_map (fun e => match e with Get url => [url] | _ => [] end) tr.

Definition calls (tr : list event) : list (nat * list value) :=
  flat_map (fun e => match e with Call f args => [(f, args)] | _ => [] end) tr.

(** How often the address [url] is looked up in a trace. *)
Definition opens (url : string) (tr : list event) : nat :=
  length (filter (String.eqb url) (lookups tr)).

Definition warnings (tr : list event) : list (string * value) :=
  flat_map (fun e => match e with DebugError t v => [(t, v)] | _ => [] end) tr.

(** The entries that the calls of [addListener] in [ops] pass for topic
    [T], in the order of the calls. *)
Fixpoint registered (T : string) (ops : list op) : list value :=
  match ops with
  | [] => []
  | AddListener topic callback :: ops' =>
      if topic =? T then callback :: registered T ops' else registered T ops'
  | _ :: ops' => registered T ops'
  end.

(** The array of a topic after further entries have been registered. *)
Definition extend (o : option (list value)) (l : list value)
  : option (list value) :=
  match o, l with
  | None, [] => None
  | None, _ => Some l
  | Some l0, _ => Some (l0 ++ l)
  end.

(** Whether an operation is a call of [addListener] that stores its entry
    under [T], resp. under any topic. *)
Definition registers_under (T : string) (o : op) : bool :=
  match o with
  | AddListener topic _ => topic =? T
  | _ => false
  end.

Definition registers (o : op) : bool :=
  match o with
  | AddListener topic _ => negb (inherited topic)
  | _ => false
  end.

Definition is_addListener (o : op) : bool :=
  match o with
  | AddListener _ _ => true
  | _ => false
  end.

Definition is_some {A : Type} (o : option A) : bool :=
  match o with
  | Some _ => true
  | None => false
  end.

Definition is_nil {A : Type} (l : list A) : bool :=
  match l with
  | [] => true
  | _ => false
  end.

(** What holds of every state the page can reach. *)
Record reachable_inv (s : state) : Prop := {
  inv_outstream :
    outstream_socket s = is_some (lookup (subscribers s) outstream_topic);
  inv_publisher :
    publisher_socket s = negb (is_nil (subscribers s));
  inv_handlers :
    forall u t, In (u, HandleOutput t) (pending s ++ sockets s) ->
                t = outstream_topic /\ outstream_socket s = true
}.

(** What one round of the fan-out loop leaves in the trace for an entry,
    when the identifier [topic] is bound to [t] and no callback raises. *)
Definition round (t : string) (args : list value) (entry : value) : event :=
  match entry with
  | VFunction f => Call f args
  | _ => DebugError t entry
  end.

(** The trace of [updateListeners] over the topics [entries], in the
    order given, when no callback raises: for each topic but the output
    topic, one round per entry, functions called with no argument. *)
Definition broadcast (entries : registry) : list event :=
  flat_map (fun e => if fst e =? outstream_topic then []
                     else map (round (fst e) []) (snd e)) entries.

(** The functions among the entries of an array, and the other entries. *)
Definition functions_of (l : list value) : list nat :=
  flat_map (fun v => match v with VFunction f => [f] | _ => [] end) l.

Definition invalid_entries (l : list value) : list value :=
  filter (fun v => negb (is_function v)) l.

(** The requests and sockets of a state whose handler is [handle_output],
    resp. [handle_message]. *)
Definition is_output_handler (p : string * handler) : bool :=
  match snd p with
  | HandleOutput _ => true
  | HandleMessage => false
  end.

Definition is_publisher_handler (p : string * handler) : bool :=
  match snd p with
  | HandleOutput _ => false
  | HandleMessage => true
  end.

Definition output_channels (s : state) : nat :=
  length (filter is_output_handler (pending s ++ sockets s)).

Definition publisher_channels (s : state) : nat :=
  length (filter is_publisher_handler (pending s ++ sockets s)).

(** The frames that a run delivers. *)
Definition frames (ops : list op) : list string :=
  flat_map (fun o => match o with SocketMessage _ d => [d] | _ => [] end) ops.

(** The addresses that a list of actions sends requests to. *)
Definition urls (l : list action) : list string :=
  flat_map (fun a => match a with Ajax r => [url r] | _ => [] end) l.

(** The characters of a string. *)
Fixpoint chars (s : string) : list ascii :=
  match s with
  | EmptyString => []
  | String c s' => c :: chars s'
  end.

(** ** Facts about the registry *)

Lemma lookup_app {A : Type} (l1 l2 : list (string * A)) (k : string) :
  lookup (l1 ++ l2) k =
  match lookup l1 k with Some a => Some a | None => lookup l2 k end.
Proof.
  induction l1 as [|[k' a] l1 IH]; simpl; [reflexivity|].
  destruct (k' =? k); [reflexivity | exact IH].
Qed.

Lemma lookup_push_same (o : registry) (k : string) (v : value) l :
  lookup o k = Some l -> lookup (push o k v) k = Some (l ++ [v]).
Proof.
  induction o as [|[k' l'] o IH]; simpl; [discriminate|].
  destruct (k' =? k) eqn:E; simpl; rewrite E.
  - intros H; inversion H; reflexivity.
  - exact IH.
Qed.

Lemma lookup_push_other (o : registry) (k k' : string) (v : value) :
  k <> k' -> lookup (push o k v) k' = lookup o k'.
Proof.
  intros Hne. induction o as [|[k0 l0] o IH]; simpl; [reflexivity|].
  destruct (k0 =? k) eqn:E; simpl.
  - apply String.eqb_eq in E; subst k0.
    destruct (k =? k') eqn:E'; [|reflexivity].
    apply String.eqb_eq in E'; contradiction.
  - rewrite IH; reflexivity.
Qed.

Lemma lookup_create_same (o : registry) (k : string) (v : value) :
  lookup o k = None -> lookup (create o k v) k = Some [v].
Proof.
  intros H. unfold create. rewrite lookup_app, H. simpl.
  rewrite String.eqb_refl. reflexivity.
Qed.

Lemma lookup_create_other (o : registry) (k k' : string) (v : value) :
  k <> k' -> lookup (create o k v) k' = lookup o k'.
Proof.
  intros Hne. unfold create. rewrite lookup_app. simpl.
  destruct (k =? k') eqn:E.
  - apply String.eqb_eq in E; contradiction.
  - destruct (lookup o k'); reflexivity.
Qed.

Lemma push_not_nil (o : registry) (k : string) (v : value) :
  is_nil (push o k v) = is_nil o.
Proof.
  destruct o as [|[k' l] o]; simpl; [reflexivity|].
  destruct (k' =? k); reflexivity.
Qed.

Lemma lookup_In {A : Type} (l : list (string * A)) (k : string) (a : A) :
  lookup l k = Some a -> In (k, a) l.
Proof.
  induction l as [|[k' a'] l IH]; simpl; [discriminate|].
  destruct (k' =? k) eqn:E.
  - apply String.eqb_eq in E. intros H; inversion H; subst. now left.
  - intros H; right; auto.
Qed.

(** [for (topic in o)] visits the own properties of [o], each once. *)
Lemma In_insert_entry (e x : string * list value) (n : N) (l : registry) :
  In x (insert_entry e n l) <-> x = e \/ In x l.
Proof.
  induction l as [|e' l IH]; simpl.
  - split; intros [H|H]; auto.
  - destruct (array_index (fst e')) as [m|].
    + destruct (n <? m)%N; simpl.
      * split; intros [H|H]; auto.
      * rewrite IH. split; intros [H|[H|H]]; auto.
    + simpl. split; intros [H|H]; auto.
Qed.

Lemma In_integer_keys (o : registry) (x : string * list value) :
  In x (integer_keys o) <-> In x o /\ array_index (fst x) <> None.
Proof.
  induction o as [|e o IH]; simpl.
  - split; [intros [] | intros [[] _]].
  - destruct (array_index (fst e)) as [n|] eqn:E.
    + rewrite In_insert_entry, IH. split.
      * intros [->|[H1 H2]]; [|auto]. split; [auto | congruence].
      * intros [[->|H1] H2]; auto.
    + rewrite IH. split.
      * intros [H1 H2]. auto.
      * intros [[->|H1] H2]; [congruence | auto].
Qed.

Lemma In_for_in (o : registry) (x : string * list value) :
  In x (for_in o) <-> In x o.
Proof.
  unfold for_in, string_keys.
  rewrite in_app_iff, In_integer_keys, filter_In. split.
  - intros [[H _]|[H _]]; exact H.
  - intros H. destruct (array_index (fst x)) eqn:E.
    + left. split; [exact H | congruence].
    + right. auto.
Qed.

(** Where no topic is an array index, the visit is in creation order. *)
Lemma for_in_string_keys (o : registry) :
  (forall x, In x o -> array_index (fst x) = None) -> for_in o = o.
Proof.
  intros H.
  assert (Hk : integer_keys o = [] /\ string_keys o = o).
  { unfold string_keys. induction o as [|e o IH]; [split; reflexivity|].
    simpl. rewrite (H e) by now left.
    destruct IH as [IH1 IH2]; [intros x Hx; apply H; now right|].
    rewrite IH1, IH2. split; reflexivity. }
  unfold for_in. destruct Hk as [-> ->]. reflexivity.
Qed.

Lemma outstream_not_inherited : inherited outstream_topic = false.
Proof. reflexivity. Qed.

(** [message[0]] of a string never names a property of Object.prototype. *)
Lemma index0_not_inherited (message : string) :
  lookup Object_prototype (index0 message) = None.
Proof.
  destruct message as [|c [|c' m]]; [reflexivity| |].
  - unfold index0.
    destruct c as [[] [] [] [] [] [] [] []]; reflexivity.
  - unfold index0.
    destruct c as [[] [] [] [] [] [] [] []]; reflexivity.
Qed.

(** ** Facts about the fan-out loop *)

Lemma invoke_all_bound (t : string) (args callbacks : list value) :
  (forall f, In (VFunction f) callbacks -> throws f args = false) ->
  invoke_all (Some t) args callbacks = (Normal, map (round t args) callbacks).
Proof.
  induction callbacks as [|entry rest IH]; intros Hq; [reflexivity|].
  assert (Hrest : forall f, In (VFunction f) rest -> throws f args = false)
    by (intros f Hf; apply Hq; now right).
  specialize (IH Hrest).
  destruct entry; simpl; rewrite ?IH; try reflexivity.
  rewrite (Hq f) by now left. reflexivity.
Qed.

Lemma invoke_all_functions (topic : option string) (args : list value)
      (fs : list nat) :
  (forall f, In f fs -> throws f args = false) ->
  invoke_all topic args (map VFunction fs) =
  (Normal, map (fun f => Call f args) fs).
Proof.
  induction fs as [|f fs IH]; intros Hq; [reflexivity|].
  simpl. rewrite (Hq f) by now left.
  rewrite IH by (intros g Hg; apply Hq; now right). reflexivity.
Qed.

Lemma invoke_all_raise (topic : option string) (args : list value)
      (pre : list nat) (f : nat) (post : list value) :
  (forall g, In g pre -> throws g args = false) ->
  throws f args = true ->
  invoke_all topic args (map VFunction pre ++ VFunction f :: post) =
  (Throw (Raised f), map (fun g => Call g args) pre ++ [Call f args]).
Proof.
  intros Hpre Hf. induction pre as [|g pre IH]; simpl.
  - rewrite Hf. reflexivity.
  - rewrite (Hpre g) by now left.
    rewrite IH by (intros h Hh; apply Hpre; now right). reflexivity.
Qed.

Lemma invoke_all_lookups (topic : option string) (args callbacks : list value) :
  lookups (snd (invoke_all topic args callbacks)) = [].
Proof.
  induction callbacks as [|entry rest IH]; [reflexivity|].
  destruct entry; simpl;
    try (destruct topic; [destruct (invoke_all _ args rest); exact IH
                         | reflexivity]).
  destruct (throws f args); [reflexivity|].
  destruct (invoke_all topic args rest); exact IH.
Qed.

Lemma invoke_all_calls (topic : option string) (args callbacks : list value)
      (f : nat) (a : list value) :
  In (f, a) (calls (snd (invoke_all topic args callbacks))) ->
  a = args /\ In (VFunction f) callbacks.
Proof.
  induction callbacks as [|entry rest IH]; [intros []|].
  destruct entry; simpl;
    try (destruct topic; [destruct (invoke_all _ args rest); simpl in *;
                          intros H; destruct (IH H); auto
                         | intros []]).
  destruct (throws f0 args).
  - simpl. intros [H|[]]. inversion H; subst. auto.
  - destruct (invoke_all topic args rest); simpl in *.
    intros [H|H]; [inversion H; subst; auto | destruct (IH H); auto].
Qed.

Lemma invoke_all_completion (t : string) (args callbacks : list value) :
  fst (invoke_all (Some t) args callbacks) = Normal \/
  exists f, fst (invoke_all (Some t) args callbacks) = Throw (Raised f).
Proof.
  induction callbacks as [|entry rest IH]; [now left|].
  destruct entry; simpl;
    try (destruct (invoke_all (Some t) args rest); exact IH).
  destruct (throws f args); [right; eexists; reflexivity|].
  destruct (invoke_all (Some t) args rest); exact IH.
Qed.

Lemma push_absent (o : registry) (k : string) (v : value) :
  lookup o k = None -> push o k v = o.
Proof.
  induction o as [|[k' l] o IH]; simpl; [reflexivity|].
  destruct (k' =? k); [discriminate|].
  intros H; rewrite IH; auto.
Qed.

Lemma is_some_lookup_push (o : registry) (k k' : string) (v : value) :
  is_some (lookup (push o k v) k') = is_some (lookup o k').
Proof.
  destruct (string_dec k k') as [->|Hne].
  - destruct (lookup o k') eqn:E.
    + rewrite (lookup_push_same _ _ v _ E). reflexivity.
    + rewrite push_absent by exact E. rewrite E. reflexivity.
  - rewrite lookup_push_other by exact Hne. reflexivity.
Qed.

(** ** The three ways through [addListener] *)

Lemma addListener_existing (topic : string) (callback : value) (s : state) l :
  lookup (subscribers s) topic = Some l ->
  addListener topic callback s =
  (Normal, set_subscribers s (push (subscribers s) topic callback), []).
Proof.
  intros H. unfold addListener, has_property, get. rewrite H. reflexivity.
Qed.

Lemma addListener_inherited (topic : string) (callback : value) (s : state) :
  lookup (subscribers s) topic = None -> inherited topic = true ->
  addListener topic callback s = (Throw TypeError, s, []).
Proof.
  intros H Hi. unfold addListener, has_property, get. rewrite H, Hi.
  unfold inherited in Hi.
  destruct (lookup Object_prototype topic); [reflexivity | discriminate].
Qed.

Lemma addListener_new (topic : string) (callback : value) (s : state) :
  lookup (subscribers s) topic = None -> inherited topic = false ->
  let out := (topic =? outstream_topic) && negb (outstream_socket s) in
  let pub := negb (publisher_socket s) in
  addListener topic callback s =
  (Normal,
   mkState (create (subscribers s) topic callback)
           (outstream_socket s || out) true (topic_global s)
           ((pending s
               ++ (if out then [("outstream", HandleOutput outstream_topic)]
                   else []))
              ++ (if pub then [("pubstream", HandleMessage)] else []))
           (sockets s),
   (if out then [Get "outstream"] else [])
     ++ (if pub then [Get "pubstream"] else [])).
Proof.
  intros H Hi. unfold addListener, has_property. rewrite H, Hi.
  destruct s as [subs o p g pe so]; simpl in *.
  destruct (topic =? outstream_topic), o, p; simpl;
    rewrite ?app_nil_r; reflexivity.
Qed.

(** ** Lookups are sent by [addListener] only *)

Lemma lookups_app (tr1 tr2 : list event) :
  lookups (tr1 ++ tr2) = lookups tr1 ++ lookups tr2.
Proof. unfold lookups. apply flat_map_app. Qed.

Lemma calls_app (tr1 tr2 : list event) :
  calls (tr1 ++ tr2) = calls tr1 ++ calls tr2.
Proof. unfold calls. apply flat_map_app. Qed.

Lemma update_loop_lookups (entries : registry) (g : option string) :
  lookups (snd (update_loop entries g)) = [].
Proof.
  revert g. induction entries as [|[t cbs] rest IH]; intros g; [reflexivity|].
  simpl. destruct (t =? outstream_topic); [apply IH|].
  pose proof (invoke_all_lookups (Some t) [] cbs) as Hl.
  destruct (invoke_all (Some t) [] cbs) as [[|e] tr]; simpl in *.
  - specialize (IH (Some t)).
    destruct (update_loop rest (Some t)) as [[c g'] tr']; simpl in *.
    rewrite lookups_app, Hl, IH. reflexivity.
  - exact Hl.
Qed.

Lemma handle_output_lookups (topic data : string) (s : state) :
  lookups (snd (handle_output topic data s)) = [].
Proof.
  unfold handle_output.
  destruct (elements (get (subscribers s) topic)); [|reflexivity].
  apply invoke_all_lookups.
Qed.

Lemma handle_message_lookups (message : string) (s : state) :
  lookups (snd (handle_message message s)) = [].
Proof.
  unfold handle_message.
  destruct (parseJSON_throws message); [reflexivity|].
  destruct (elements (get (subscribers s) (index0 message))); [|reflexivity].
  apply invoke_all_lookups.
Qed.

Lemma step_other_lookups (o : op) (s : state) :
  is_addListener o = false -> lookups (snd (step o s)) = [].
Proof.
  destruct o as [t v| |k addr|k|k data]; simpl; [discriminate| | | |]; intros _.
  - unfold updateListeners.
    pose proof (update_loop_lookups (for_in (subscribers s)) (topic_global s))
      as H.
    destruct (update_loop (for_in (subscribers s)) (topic_global s))
      as [[c g] tr].
    exact H.
  - unfold lookup_success.
    destruct (nth_error (pending s) k) as [[u h]|]; reflexivity.
  - unfold lookup_failure.
    destruct (nth_error (pending s) k) as [[u h]|]; reflexivity.
  - unfold socket_message.
    destruct (nth_error (sockets s) k) as [[u [t|]]|]; [| |reflexivity].
    + pose proof (handle_output_lookups t data s) as H.
      destruct (handle_output t data s); exact H.
    + pose proof (handle_message_lookups data s) as H.
      destruct (handle_message data s); exact H.
Qed.

(** ** The invariant of the reachable states *)

Lemma remove_nth_In {A : Type} (k : nat) (l : list A) (x : A) :
  In x (remove_nth k l) -> In x l.
Proof.
  revert l. induction k as [|k IH]; intros [|a l]; simpl; auto.
  unfold remove_nth in *. simpl. intros [H|H]; auto.
Qed.

Lemma initial_inv : reachable_inv initial.
Proof. constructor; simpl; auto. intros u t []. Qed.

Lemma addListener_inv (topic : string) (callback : value) (s : state) :
  reachable_inv s -> reachable_inv (snd (fst (addListener topic callback s))).
Proof.
  intros [Ho Hp Hh].
  destruct (lookup (subscribers s) topic) as [l|] eqn:El.
  - rewrite (addListener_existing _ callback _ _ El). constructor; simpl.
    + rewrite is_some_lookup_push. exact Ho.
    + rewrite push_not_nil. exact Hp.
    + exact Hh.
  - destruct (inherited topic) eqn:Ei.
    + rewrite addListener_inherited by assumption. constructor; assumption.
    + rewrite addListener_new by assumption. constructor; simpl.
      * destruct (topic =? outstream_topic) eqn:Et; simpl.
        -- apply String.eqb_eq in Et; subst topic.
           rewrite lookup_create_same by exact El.
           destruct (outstream_socket s); reflexivity.
        -- apply String.eqb_neq in Et.
           rewrite lookup_create_other by exact Et.
           rewrite orb_false_r. exact Ho.
      * unfold create. destruct (subscribers s); reflexivity.
      * intros u t Hin.
        apply in_app_or in Hin. destruct Hin as [Hin|Hin].
        -- apply in_app_or in Hin. destruct Hin as [Hin|Hin].
           ++ apply in_app_or in Hin. destruct Hin as [Hin|Hin].
              ** destruct (Hh u t) as [Ht Hf]; [apply in_or_app; now left|].
                 rewrite Hf. auto.
              ** destruct ((topic =? outstream_topic)
                           && negb (outstream_socket s)); [|destruct Hin].
                 destruct Hin as [Hin|[]]. inversion Hin; subst.
                 rewrite orb_true_r. auto.
           ++ destruct (negb (publisher_socket s)); [|destruct Hin].
              destruct Hin as [Hin|[]]. discriminate.
        -- destruct (Hh u t) as [Ht Hf]; [apply in_or_app; now right|].
           rewrite Hf. auto.
Qed.

Lemma step_inv (o : op) (s : state) :
  reachable_inv s -> reachable_inv (snd (fst (step o s))).
Proof.
  intros Hinv. destruct o as [t v| |k addr|k|k data]; simpl.
  - apply addListener_inv; exact Hinv.
  - unfold updateListeners.
    destruct (update_loop (for_in (subscribers s)) (topic_global s))
      as [[c g] tr].
    destruct Hinv as [Ho Hp Hh]. constructor; simpl; assumption.
  - unfold lookup_success.
    destruct (nth_error (pending s) k) as [[u h]|] eqn:En; [|exact Hinv].
    destruct Hinv as [Ho Hp Hh]. constructor; simpl; try assumption.
    intros u' t Hin.
    apply in_app_or in Hin. destruct Hin as [Hin|Hin].
    + apply (Hh u' t). apply in_or_app; left.
      eapply remove_nth_In; exact Hin.
    + apply in_app_or in Hin. destruct Hin as [Hin|[Hin|[]]].
      * apply (Hh u' t). apply in_or_app; now right.
      * inversion Hin; subst. apply (Hh u t).
        apply in_or_app; left. eapply nth_error_In; exact En.
  - unfold lookup_failure.
    destruct (nth_error (pending s) k) as [[u h]|] eqn:En; [|exact Hinv].
    destruct Hinv as [Ho Hp Hh]. constructor; simpl; try assumption.
    intros u' t Hin. apply (Hh u' t).
    apply in_app_or in Hin. destruct Hin as [Hin|Hin].
    + apply in_or_app; left. eapply remove_nth_In; exact Hin.
    + apply in_or_app; now right.
  - unfold socket_message.
    destruct (nth_error (sockets s) k) as [[u [t|]]|]; [| |exact Hinv].
    + destruct (handle_output t data s); exact Hinv.
    + destruct (handle_message data s); exact Hinv.
Qed.

Lemma run_inv (ops : list op) (s : state) :
  reachable_inv s -> reachable_inv (fst (run ops s)).
Proof.
  revert s; induction ops as [|o ops IH]; intros s H; simpl; [exact H|].
  pose proof (step_inv o s H) as H1.
  destruct (step o s) as [[c s1] tr1]; simpl in H1.
  specialize (IH s1 H1). destruct (run ops s1) as [s2 tr2]; exact IH.
Qed.

Lemma run_app (ops1 ops2 : list op) (s : state) :
  run (ops1 ++ ops2) s =
  (fst (run ops2 (fst (run ops1 s))),
   snd (run ops1 s) ++ snd (run ops2 (fst (run ops1 s)))).
Proof.
  revert s; induction ops1 as [|o ops1 IH]; intros s; simpl.
  - destruct (run ops2 s); reflexivity.
  - destruct (step o s) as [[c s1] tr1]. rewrite IH.
    destruct (run ops1 s1) as [s2 tr2]; simpl.
    rewrite app_assoc. reflexivity.
Qed.

Lemma opens_app (url : string) (tr1 tr2 : list event) :
  opens url (tr1 ++ tr2) = opens url tr1 + opens url tr2.
Proof.
  unfold opens. rewrite lookups_app, filter_app, length_app. reflexivity.
Qed.

(** ** What one step does to the two flags and which lookups it sends *)

Lemma lookup_some_not_nil (o : registry) (k : string) l :
  lookup o k = Some l -> is_nil o = false.
Proof. destruct o; [discriminate | reflexivity]. Qed.

Lemma step_flags (o : op) (s : state) :
  reachable_inv s ->
  lookups (snd (step o s)) =
    (if registers_under outstream_topic o && negb (outstream_socket s)
     then ["outstream"] else [])
    ++ (if registers o && negb (publisher_socket s)
        then ["pubstream"] else [])
  /\ outstream_socket (snd (fst (step o s))) =
     outstream_socket s || registers_under outstream_topic o
  /\ publisher_socket (snd (fst (step o s))) =
     publisher_socket s || registers o.
Proof.
  intros Hinv.
  destruct (is_addListener o) eqn:Ea.
  - destruct o as [t v| | | |]; try discriminate. clear Ea.
    destruct Hinv as [Ho Hp Hh]. simpl.
    destruct (lookup (subscribers s) t) as [l|] eqn:El.
    + rewrite (addListener_existing _ v _ _ El). simpl.
      rewrite Hp, (lookup_some_not_nil _ _ _ El). simpl.
      rewrite andb_false_r. simpl.
      destruct (t =? outstream_topic) eqn:Et; simpl.
      * apply String.eqb_eq in Et; subst t.
        rewrite Ho, El. simpl. auto.
      * rewrite orb_false_r. auto.
    + destruct (inherited t) eqn:Ei.
      * rewrite addListener_inherited by assumption. simpl.
        destruct (t =? outstream_topic) eqn:Et.
        -- apply String.eqb_eq in Et; subst t. discriminate.
        -- simpl. rewrite !orb_false_r. auto.
      * rewrite addListener_new by assumption. simpl.
        destruct (t =? outstream_topic), (outstream_socket s),
                 (publisher_socket s); simpl; auto.
  - rewrite (step_other_lookups o s Ea).
    destruct o as [t v| |k addr|k|k data]; try discriminate; simpl.
    + unfold updateListeners.
      destruct (update_loop (for_in (subscribers s)) (topic_global s))
        as [[c g] tr].
      simpl. rewrite !orb_false_r. auto.
    + unfold lookup_success.
      destruct (nth_error (pending s) k) as [[u h]|]; simpl;
        rewrite !orb_false_r; auto.
    + unfold lookup_failure.
      destruct (nth_error (pending s) k) as [[u h]|]; simpl;
        rewrite !orb_false_r; auto.
    + unfold socket_message.
      destruct (nth_error (sockets s) k) as [[u [t|]]|]; simpl;
        [destruct (handle_output t data s)
        |destruct (handle_message data s)|];
        simpl; rewrite !orb_false_r; auto.
Qed.

Lemma run_outstream (ops : list op) (s : state) :
  reachable_inv s ->
  opens "outstream" (snd (run ops s)) =
    (if outstream_socket s then 0
     else if existsb (registers_under outstream_topic) ops then 1 else 0)
  /\ outstream_socket (fst (run ops s)) =
     outstream_socket s || existsb (registers_under outstream_topic) ops.
Proof.
  revert s; induction ops as [|o ops IH]; intros s Hinv; simpl.
  - rewrite orb_false_r. destruct (outstream_socket s); auto.
  - destruct (step_flags o s Hinv) as (Hl & Hf & _).
    pose proof (step_inv o s Hinv) as Hinv1.
    destruct (step o s) as [[c s1] tr1]; simpl in *.
    destruct (IH s1 Hinv1) as [IH1 IH2].
    destruct (run ops s1) as [s2 tr2]; simpl in *.
    rewrite opens_app, IH1, IH2, Hf. unfold opens. rewrite Hl.
    destruct (registers_under outstream_topic o), (outstream_socket s),
             (registers o && negb (publisher_socket s)); simpl;
      rewrite ?orb_true_r; auto;
      destruct (existsb (registers_under outstream_topic) ops); auto.
Qed.

Lemma run_publisher (ops : list op) (s : state) :
  reachable_inv s ->
  opens "pubstream" (snd (run ops s)) =
    (if publisher_socket s then 0
     else if existsb registers ops then 1 else 0)
  /\ publisher_socket (fst (run ops s)) =
     publisher_socket s || existsb registers ops.
Proof.
  revert s; induction ops as [|o ops IH]; intros s Hinv; simpl.
  - rewrite orb_false_r. destruct (publisher_socket s); auto.
  - destruct (step_flags o s Hinv) as (Hl & _ & Hf).
    pose proof (step_inv o s Hinv) as Hinv1.
    destruct (step o s) as [[c s1] tr1]; simpl in *.
    destruct (IH s1 Hinv1) as [IH1 IH2].
    destruct (run ops s1) as [s2 tr2]; simpl in *.
    rewrite opens_app, IH1, IH2, Hf. unfold opens. rewrite Hl.
    destruct (registers o), (publisher_socket s),
             (registers_under outstream_topic o
              && negb (outstream_socket s)); simpl;
      rewrite ?orb_true_r; auto;
      destruct (existsb registers ops); auto.
Qed.

(** ** The registry records the registrations, in their order *)

Lemma extend_nil (o : option (list value)) : extend o [] = o.
Proof. destruct o; simpl; [rewrite app_nil_r|]; reflexivity. Qed.

Lemma extend_app (o : option (list value)) (l1 l2 : list value) :
  extend (extend o l1) l2 = extend o (l1 ++ l2).
Proof.
  destruct o as [l0|]; simpl.
  - rewrite app_assoc. reflexivity.
  - destruct l1; reflexivity.
Qed.

Lemma registered_cons (T : string) (o : op) (ops : list op) :
  registered T (o :: ops) = registered T [o] ++ registered T ops.
Proof.
  destruct o as [t v| | | |]; simpl; try reflexivity.
  destruct (t =? T); reflexivity.
Qed.

Lemma step_subscribers (o : op) (s : state) (T : string) :
  inherited T = false ->
  lookup (subscribers (snd (fst (step o s)))) T =
  extend (lookup (subscribers s) T) (registered T [o]).
Proof.
  intros HT. destruct o as [t v| |k addr|k|k data]; simpl.
  - destruct (t =? T) eqn:Et.
    + apply String.eqb_eq in Et; subst t.
      destruct (lookup (subscribers s) T) as [l|] eqn:El.
      * rewrite (addListener_existing _ v _ _ El). simpl.
        apply lookup_push_same; exact El.
      * rewrite addListener_new by assumption. simpl.
        apply lookup_create_same; exact El.
    + apply String.eqb_neq in Et. rewrite extend_nil.
      destruct (lookup (subscribers s) t) as [l|] eqn:El.
      * rewrite (addListener_existing _ v _ _ El). simpl.
        apply lookup_push_other; exact Et.
      * destruct (inherited t) eqn:Ei.
        -- rewrite addListener_inherited by assumption. reflexivity.
        -- rewrite addListener_new by assumption. simpl.
           apply lookup_create_other; exact Et.
  - unfold updateListeners.
    destruct (update_loop (for_in (subscribers s)) (topic_global s))
      as [[c g] tr].
    simpl. rewrite extend_nil. reflexivity.
  - unfold lookup_success.
    destruct (nth_error (pending s) k) as [[u h]|]; simpl;
      rewrite extend_nil; reflexivity.
  - unfold lookup_failure.
    destruct (nth_error (pending s) k) as [[u h]|]; simpl;
      rewrite extend_nil; reflexivity.
  - unfold socket_message.
    destruct (nth_error (sockets s) k) as [[u [t|]]|]; simpl;
      [destruct (handle_output t data s)
      |destruct (handle_message data s)|];
      simpl; rewrite extend_nil; reflexivity.
Qed.

Lemma run_subscribers (ops : list op) (s : state) (T : string) :
  inherited T = false ->
  lookup (subscribers (fst (run ops s))) T =
  extend (lookup (subscribers s) T) (registered T ops).
Proof.
  intros HT. revert s; induction ops as [|o ops IH]; intros s.
  - simpl. rewrite extend_nil. reflexivity.
  - rewrite registered_cons, <- extend_app, <- (step_subscribers o s T HT).
    simpl. destruct (step o s) as [[c s1] tr1]; simpl.
    specialize (IH s1). destruct (run ops s1) as [s2 tr2]; exact IH.
Qed.

(** ** The loop of [updateListeners] *)

Lemma update_loop_quiet (entries : registry) (g : option string) :
  (forall t cbs f, In (t, cbs) entries -> t <> outstream_topic ->
                   In (VFunction f) cbs -> throws f [] = false) ->
  fst (fst (update_loop entries g)) = Normal /\
  snd (update_loop entries g) = broadcast entries.
Proof.
  revert g. induction entries as [|[t cbs] rest IH]; intros g Hq; [now split|].
  assert (Hrest : forall t' cbs' f, In (t', cbs') rest ->
                    t' <> outstream_topic -> In (VFunction f) cbs' ->
                    throws f [] = false)
    by (intros t' cbs' f Hin; apply Hq; now right).
  destruct (IH (Some t) Hrest) as [IHc IHt].
  unfold broadcast in *. simpl.
  destruct (t =? outstream_topic) eqn:Et; [now split|].
  apply String.eqb_neq in Et.
  rewrite invoke_all_bound by (intros f Hf; apply (Hq t cbs f); auto; now left).
  destruct (update_loop rest (Some t)) as [[c g'] tr']; simpl in *.
  subst. now split.
Qed.

Lemma update_loop_calls (entries : registry) (g : option string)
      (f : nat) (a : list value) :
  In (f, a) (calls (snd (update_loop entries g))) ->
  a = [] /\
  exists t cbs, In (t, cbs) entries /\ t <> outstream_topic /\
                In (VFunction f) cbs.
Proof.
  revert g. induction entries as [|[t cbs] rest IH]; intros g; [intros []|].
  simpl. destruct (t =? outstream_topic) eqn:Et.
  - intros H. destruct (IH _ H) as (Ha & t' & cbs' & Hin & Hne & Hf).
    split; [exact Ha|]. exists t', cbs'. split; [now right | auto].
  - apply String.eqb_neq in Et.
    pose proof (invoke_all_calls (Some t) [] cbs f a) as Hhere.
    destruct (invoke_all (Some t) [] cbs) as [[|e] tr]; simpl in *.
    + specialize (IH (Some t)).
      destruct (update_loop rest (Some t)) as [[c g'] tr']; simpl in *.
      rewrite calls_app. intros H. apply in_app_or in H. destruct H as [H|H].
      * destruct (Hhere H) as [Ha Hf]. split; [exact Ha|].
        exists t, cbs. split; [now left | auto].
      * destruct (IH H) as (Ha & t' & cbs' & Hin & Hne & Hf).
        split; [exact Ha|]. exists t', cbs'. split; [now right | auto].
    + intros H. destruct (Hhere H) as [Ha Hf]. split; [exact Ha|].
      exists t, cbs. split; [now left | auto].
Qed.

Lemma updateListeners_calls_registered (s : state) (f : nat)
      (a : list value) :
  In (f, a) (calls (snd (updateListeners s))) ->
  a = [] /\
  exists t cbs, In (t, cbs) (subscribers s) /\ t <> outstream_topic /\
                In (VFunction f) cbs.
Proof.
  unfold updateListeners.
  pose proof (update_loop_calls (for_in (subscribers s)) (topic_global s) f a)
    as H.
  destruct (update_loop (for_in (subscribers s)) (topic_global s))
    as [[c g] tr].
  simpl in *. intros Hin.
  destruct (H Hin) as (Ha & t & cbs & H1 & H2 & H3).
  split; [exact Ha|]. exists t, cbs. split; [|auto].
  apply In_for_in. exact H1.
Qed.

Lemma updateListeners_quiet (s : state) :
  (forall t cbs f, In (t, cbs) (subscribers s) -> t <> outstream_topic ->
                   In (VFunction f) cbs -> throws f [] = false) ->
  fst (fst (updateListeners s)) = Normal /\
  snd (updateListeners s) = broadcast (for_in (subscribers s)).
Proof.
  intros Hq. unfold updateListeners.
  destruct (update_loop_quiet (for_in (subscribers s)) (topic_global s))
    as [Hc Htr].
  { intros t cbs f Hin. apply Hq. apply In_for_in. exact Hin. }
  destruct (update_loop (for_in (subscribers s)) (topic_global s))
    as [[c g] tr].
  simpl in *. auto.
Qed.

Lemma broadcast_app (l1 l2 : registry) :
  broadcast (l1 ++ l2) = broadcast l1 ++ broadcast l2.
Proof. unfold broadcast. apply flat_map_app. Qed.

Lemma broadcast_In (entries : registry) (t : string) (cbs : list value)
      (f : nat) :
  In (t, cbs) entries -> t <> outstream_topic -> In (VFunction f) cbs ->
  In (f, []) (calls (broadcast entries)).
Proof.
  intros Hin Hne Hf. unfold calls. apply in_flat_map.
  exists (Call f []). split; [|now left].
  unfold broadcast. apply in_flat_map. exists (t, cbs). split; [exact Hin|].
  simpl. apply String.eqb_neq in Hne. rewrite Hne.
  change (Call f []) with (round t [] (VFunction f)).
  apply in_map. exact Hf.
Qed.

Lemma invoke_all_raise_at (topic : option string) (t : string)
      (args pre : list value) (f : nat) (post : list value) :
  topic = Some t \/ invalid_entries pre = [] ->
  (forall g, In (VFunction g) pre -> throws g args = false) ->
  throws f args = true ->
  invoke_all topic args (pre ++ VFunction f :: post) =
  (Throw (Raised f), map (round t args) pre ++ [Call f args]).
Proof.
  intros Ht Hpre Hf. induction pre as [|entry pre IH]; simpl.
  - rewrite Hf. reflexivity.
  - assert (Hrest : forall g, In (VFunction g) pre -> throws g args = false)
      by (intros g Hg; apply Hpre; now right).
    destruct (is_function entry) eqn:Ee.
    + destruct entry; try discriminate.
      rewrite (Hpre f0) by now left.
      rewrite IH; [reflexivity | | exact Hrest].
      destruct Ht as [Ht|Ht]; [now left | right].
      unfold invalid_entries in *. simpl in Ht. exact Ht.
    + destruct Ht as [Ht|Ht].
      * subst topic. rewrite IH by auto. destruct entry; try reflexivity.
        discriminate.
      * unfold invalid_entries in Ht. simpl in Ht. rewrite Ee in Ht.
        discriminate.
Qed.

Lemma update_loop_raise (T : string) (before after : registry)
      (pre : list value) (f : nat) (post : list value) (g : option string) :
  T <> outstream_topic ->
  (forall t cbs h, In (t, cbs) before -> t <> outstream_topic ->
                   In (VFunction h) cbs -> throws h [] = false) ->
  (forall h, In (VFunction h) pre -> throws h [] = false) ->
  throws f [] = true ->
  update_loop (before ++ (T, pre ++ VFunction f :: post) :: after) g =
  (Throw (Raised f), Some T,
   broadcast before ++ map (round T []) pre ++ [Call f []]).
Proof.
  intros HT Hq Hpre Hf. revert g.
  induction before as [|[t cbs] before IH]; intros g; simpl.
  - apply String.eqb_neq in HT. rewrite HT.
    rewrite (invoke_all_raise_at (Some T) T) by auto. reflexivity.
  - assert (Hrest : forall t' cbs' h, In (t', cbs') before ->
                      t' <> outstream_topic -> In (VFunction h) cbs' ->
                      throws h [] = false)
      by (intros t' cbs' h Hin; apply Hq; now right).
    unfold broadcast. simpl. fold (broadcast before).
    destruct (t =? outstream_topic) eqn:Et; [apply IH; exact Hrest|].
    apply String.eqb_neq in Et.
    rewrite invoke_all_bound
      by (intros h Hh; apply (Hq t cbs h); auto; now left).
    rewrite IH by exact Hrest. rewrite <- app_assoc. reflexivity.
Qed.

Lemma get_own (o : registry) (k : string) (l : list value) :
  lookup o k = Some l -> get o k = Array l.
Proof. intros H. unfold get. rewrite H. reflexivity. Qed.

Lemma handle_message_own (message : string) (s : state) (l : list value) :
  parseJSON_throws message = false ->
  lookup (subscribers s) (index0 message) = Some l ->
  handle_message message s =
  invoke_all (topic_global s) [VString message] l.
Proof.
  intros Hp Hl. unfold handle_message. rewrite Hp, (get_own _ _ _ Hl).
  reflexivity.
Qed.

(** The publisher handler reads the array named by the first character of
    the frame, and does nothing when there is none. *)
Lemma handle_message_unrouted (message : string) (s : state) :
  lookup (subscribers s) (index0 message) = None ->
  snd (handle_message message s) = [].
Proof.
  intros Hl. unfold handle_message, get.
  destruct (parseJSON_throws message); [reflexivity|].
  rewrite Hl, index0_not_inherited. reflexivity.
Qed.

Lemma handle_message_calls (message : string) (s : state) (f : nat)
      (a : list value) :
  In (f, a) (calls (snd (handle_message message s))) ->
  a = [VString message] /\
  exists l, lookup (subscribers s) (index0 message) = Some l /\
            In (VFunction f) l.
Proof.
  unfold handle_message, get.
  destruct (parseJSON_throws message); [intros []|].
  rewrite index0_not_inherited.
  destruct (lookup (subscribers s) (index0 message)) as [l|]; [|intros []].
  simpl. intros H. apply invoke_all_calls in H. destruct H as [Ha Hf].
  split; [exact Ha|]. exists l. auto.
Qed.

(** No frame makes the publisher handler read the array of a topic that
    starts with the prefix "prob.". *)
Lemma index0_not_prefixed (message S : string) :
  index0 message <> ("prob." ++ S)%string.
Proof.
  destruct message as [|c m]; simpl; discriminate.
Qed.

(** With no global [topic], the publisher handler ends at the first entry
    that is not a function. *)
Lemma invoke_all_unbound (args : list value) (pre : list nat) (entry : value)
      (post : list value) :
  (forall g, In g pre -> throws g args = false) ->
  is_function entry = false ->
  invoke_all None args (map VFunction pre ++ entry :: post) =
  (Throw ReferenceError, map (fun g => Call g args) pre).
Proof.
  intros Hpre He. induction pre as [|g pre IH]; simpl.
  - destruct entry; try reflexivity. discriminate.
  - rewrite (Hpre g) by now left.
    rewrite IH by (intros h Hh; apply Hpre; now right). reflexivity.
Qed.

Lemma handle_message_unbound (message : string) (s : state) (pre : list nat)
      (entry : value) (post : list value) :
  parseJSON_throws message = false ->
  lookup (subscribers s) (index0 message) =
    Some (map VFunction pre ++ entry :: post) ->
  topic_global s = None ->
  (forall g, In g pre -> throws g [VString message] = false) ->
  is_function entry = false ->
  handle_message message s =
  (Throw ReferenceError, map (fun g => Call g [VString message]) pre).
Proof.
  intros Hp Hl Hg Hpre He. rewrite (handle_message_own _ _ _ Hp Hl), Hg.
  apply invoke_all_unbound; assumption.
Qed.

(** Entries that are not functions are skipped, with a warning, by the
    output handler, by [updateListeners] (see [update_loop_quiet]) and by
    the publisher handler once the global [topic] exists. *)
Lemma handle_output_skips (topic data : string) (s : state) (l : list value) :
  lookup (subscribers s) topic = Some l ->
  (forall f, In (VFunction f) l -> throws f [VString data] = false) ->
  handle_output topic data s = (Normal, map (round topic [VString data]) l).
Proof.
  intros Hl Hq. unfold handle_output. rewrite (get_own _ _ _ Hl). simpl.
  apply invoke_all_bound; exact Hq.
Qed.

Lemma handle_message_skips (message g : string) (s : state) (l : list value) :
  parseJSON_throws message = false ->
  lookup (subscribers s) (index0 message) = Some l ->
  topic_global s = Some g ->
  (forall f, In (VFunction f) l -> throws f [VString message] = false) ->
  handle_message message s = (Normal, map (round g [VString message]) l).
Proof.
  intros Hp Hl Hg Hq. rewrite (handle_message_own _ _ _ Hp Hl), Hg.
  apply invoke_all_bound; exact Hq.
Qed.

(** Under a topic that [subscribers] does not inherit, [addListener] stores
    any value at the end of the topic's array and returns. *)
Lemma addListener_registers (topic : string) (callback : value) (s : state) :
  inherited topic = false ->
  fst (fst (addListener topic callback s)) = Normal /\
  lookup (subscribers (snd (fst (addListener topic callback s)))) topic =
  extend (lookup (subscribers s) topic) [callback].
Proof.
  intros Hi. split.
  - destruct (lookup (subscribers s) topic) as [l|] eqn:El.
    + rewrite (addListener_existing _ callback _ _ El). reflexivity.
    + rewrite addListener_new by assumption. reflexivity.
  - pose proof (step_subscribers (AddListener topic callback) s topic Hi) as H.
    simpl in H. rewrite String.eqb_refl in H. exact H.
Qed.

(** * The lazily opened channels *)

(** C4: in a run from the initial state, the address of the output stream
    is looked up exactly once if some call of [addListener] has the output
    topic, and never otherwise; the lookup is sent by the first such call,
    not before it and not after it. *)
Theorem outstream_channel_opened_once (ops : list op) :
  opens "outstream" (snd (run ops initial)) =
    (if existsb (registers_under outstream_topic) ops then 1 else 0)
  /\ forall pre callback post,
       ops = pre ++ AddListener outstream_topic callback :: post ->
       existsb (registers_under outstream_topic) pre = false ->
       let s1 := fst (run pre initial) in
       let s2 := snd (fst (step (AddListener outstream_topic callback) s1)) in
       opens "outstream" (snd (run pre initial)) = 0 /\
       opens "outstream"
             (snd (step (AddListener outstream_topic callback) s1)) = 1 /\
       opens "outstream" (snd (run post s2)) = 0.
Proof.
  split.
  - destruct (run_outstream ops initial initial_inv) as [H _]. exact H.
  - intros pre callback post _ Hpre s1 s2.
    destruct (run_outstream pre initial initial_inv) as [H0 Hf1].
    rewrite Hpre in H0, Hf1. simpl in H0, Hf1.
    pose proof (run_inv pre initial initial_inv) as Hinv1.
    fold s1 in Hf1, Hinv1.
    pose proof (step_inv (AddListener outstream_topic callback) s1 Hinv1)
      as Hinv2.
    destruct (step_flags (AddListener outstream_topic callback) s1 Hinv1)
      as (Hl & Hf2 & _).
    fold s2 in Hinv2, Hf2.
    destruct (run_outstream post s2 Hinv2) as [H2 _].
    rewrite Hf2, Hf1 in H2. simpl in H2.
    split; [exact H0|]. split; [|exact H2].
    unfold opens. rewrite Hl, Hf1. simpl.
    destruct (negb (publisher_socket s1)); reflexivity.
Qed.

(** C5: in a run from the initial state, the address of the publisher
    stream is looked up exactly once if some call of [addListener] registers
    an entry, and never otherwise; the lookup is sent by the first call that
    registers, whatever its topic, and by no later call. *)
Theorem publisher_channel_opened_once (ops : list op) :
  opens "pubstream" (snd (run ops initial)) =
    (if existsb registers ops then 1 else 0)
  /\ forall pre topic callback post,
       ops = pre ++ AddListener topic callback :: post ->
       inherited topic = false ->
       let s1 := fst (run pre initial) in
       let s2 := snd (fst (step (AddListener topic callback) s1)) in
       opens "pubstream" (snd (step (AddListener topic callback) s1)) =
         (if existsb registers pre then 0 else 1) /\
       opens "pubstream" (snd (run post s2)) = 0.
Proof.
  split.
  - destruct (run_publisher ops initial initial_inv) as [H _]. exact H.
  - intros pre topic callback post _ Ht s1 s2.
    destruct (run_publisher pre initial initial_inv) as [_ Hf1].
    simpl in Hf1.
    pose proof (run_inv pre initial initial_inv) as Hinv1.
    fold s1 in Hf1, Hinv1.
    pose proof (step_inv (AddListener topic callback) s1 Hinv1) as Hinv2.
    destruct (step_flags (AddListener topic callback) s1 Hinv1)
      as (Hl & _ & Hf2).
    fold s2 in Hinv2, Hf2.
    destruct (run_publisher post s2 Hinv2) as [H2 _].
    assert (Hr : registers (AddListener topic callback) = true)
      by (simpl; rewrite Ht; reflexivity).
    rewrite Hr in Hl, Hf2. rewrite orb_true_r in Hf2.
    rewrite Hf2 in H2. split; [|exact H2].
    unfold opens. rewrite Hl, Hf1.
    destruct (registers_under outstream_topic (AddListener topic callback)
              && negb (outstream_socket s1)),
             (existsb registers pre); reflexivity.
Qed.

Lemma run_idle (ops : list op) :
  existsb is_addListener ops = false -> run ops initial = (initial, []).
Proof.
  induction ops as [|o ops IH]; [reflexivity|].
  simpl. intros H. apply orb_false_elim in H. destruct H as [Ho Hops].
  assert (Hstep : step o initial = (Normal, initial, [])).
  { destruct o as [t v| |k addr|k|k data]; try discriminate.
    - reflexivity.
    - destruct k; reflexivity.
    - destruct k; reflexivity.
    - destruct k; reflexivity. }
  rewrite Hstep, (IH Hops). reflexivity.
Qed.

(** C8: in a run from the initial state without any call of
    [addListener], no address is looked up, no socket is created, and none
    is pending or open at the end; and in any state whatsoever, an operation
    other than [addListener] sends no lookup. *)
Theorem no_lookup_without_addListener (ops : list op) :
  existsb is_addListener ops = false ->
  lookups (snd (run ops initial)) = [] /\
  (forall addr, ~ In (NewWebSocket addr) (snd (run ops initial))) /\
  pending (fst (run ops initial)) = [] /\
  sockets (fst (run ops initial)) = [] /\
  (forall o s, is_addListener o = false -> lookups (snd (step o s)) = []).
Proof.
  intros H. rewrite (run_idle ops H). simpl.
  repeat split; auto. apply step_other_lookups.
Qed.

(** C9: in every state reached from the initial one, if the flag
    [outstream_socket] is set then [subscribers] has an array for the output
    topic; every socket whose handler is [handle_output] has been opened for
    the output topic and finds that array, so that a frame on it never ends
    in the TypeError of reading [length] of [undefined]. *)
Theorem output_handler_finds_its_list (ops : list op) :
  let s := fst (run ops initial) in
  (outstream_socket s = true ->
   exists l, lookup (subscribers s) outstream_topic = Some l) /\
  (forall k addr topic data,
      nth_error (sockets s) k = Some (addr, HandleOutput topic) ->
      topic = outstream_topic /\
      (exists l, get (subscribers s) topic = Array l) /\
      fst (fst (step (SocketMessage k data) s)) <> Throw TypeError).
Proof.
  intros s.
  pose proof (run_inv ops initial initial_inv) as Hinv. fold s in Hinv.
  destruct Hinv as [Ho Hp Hh].
  assert (Hlist : outstream_socket s = true ->
                  exists l, lookup (subscribers s) outstream_topic = Some l).
  { intros Hf. rewrite Hf in Ho.
    destruct (lookup (subscribers s) outstream_topic) as [l|];
      [exists l; reflexivity | discriminate]. }
  split; [exact Hlist|].
  intros k addr topic data Hk.
  destruct (Hh addr topic) as [Ht Hf].
  { apply in_or_app; right. eapply nth_error_In; exact Hk. }
  subst topic. destruct (Hlist Hf) as [l Hl].
  split; [reflexivity|]. split.
  - exists l. unfold get. rewrite Hl. reflexivity.
  - simpl. unfold socket_message. rewrite Hk.
    unfold handle_output, get. rewrite Hl. simpl.
    pose proof (invoke_all_completion outstream_topic [VString data] l) as Hc.
    destruct (invoke_all (Some outstream_topic) [VString data] l) as [c tr].
    simpl in *. destruct Hc as [Hc|[f Hc]]; rewrite Hc; discriminate.
Qed.

(** * Fan-out *)

(** C2: after any run from the initial state in which the entries
    registered under a topic [T] are the functions [fs], in this order and
    with repetitions, the array of [T] is [fs]; and, when none of these
    functions raises, the output handler for [T], the publisher handler on
    a frame that selects [T], and [updateListeners] (for [T] other than the
    output topic, no callback raising) call exactly the functions [fs],
    each registration once, in the order of registration. *)
Theorem fan_out_in_registration_order (ops : list op) (T : string)
        (fs : list nat) :
  inherited T = false ->
  registered T ops = map VFunction fs ->
  fs <> [] ->
  let s := fst (run ops initial) in
  lookup (subscribers s) T = Some (map VFunction fs) /\
  (forall data,
      (forall f, In f fs -> throws f [VString data] = false) ->
      handle_output T data s =
      (Normal, map (fun f => Call f [VString data]) fs)) /\
  (forall message,
      parseJSON_throws message = false ->
      index0 message = T ->
      (forall f, In f fs -> throws f [VString message] = false) ->
      handle_message message s =
      (Normal, map (fun f => Call f [VString message]) fs)) /\
  (T <> outstream_topic ->
   (forall t cbs f, In (t, cbs) (subscribers s) -> t <> outstream_topic ->
                    In (VFunction f) cbs -> throws f [] = false) ->
   fst (fst (updateListeners s)) = Normal /\
   exists before after,
     snd (updateListeners s) =
     before ++ map (fun f => Call f []) fs ++ after).
Proof.
  intros HT Hreg Hne s.
  assert (Hl : lookup (subscribers s) T = Some (map VFunction fs)).
  { unfold s. rewrite (run_subscribers ops initial T HT), Hreg. simpl.
    destruct fs; [contradiction | reflexivity]. }
  split; [exact Hl|]. split; [|split].
  - intros data Hq. unfold handle_output. rewrite (get_own _ _ _ Hl). simpl.
    apply invoke_all_functions; exact Hq.
  - intros message Hp Hk Hq. subst T.
    rewrite (handle_message_own _ _ _ Hp Hl).
    apply invoke_all_functions; exact Hq.
  - intros Hout Hq.
    destruct (updateListeners_quiet s Hq) as [Hc Htr].
    split; [exact Hc|].
    assert (Hin : In (T, map VFunction fs) (for_in (subscribers s)))
      by (apply In_for_in; apply lookup_In; exact Hl).
    destruct (in_split _ _ Hin) as (l1 & l2 & Hsplit).
    exists (broadcast l1), (broadcast l2).
    rewrite Htr, Hsplit, broadcast_app. f_equal.
    unfold broadcast at 1. simpl. fold (broadcast l2).
    apply String.eqb_neq in Hout. rewrite Hout.
    rewrite map_map. reflexivity.
Qed.

(** C3, as the code has it: an exception raised by a callback is not
    caught.  In the output handler, in the publisher handler and in
    [updateListeners], whatever the entries of the list, the entries before
    the raising callback are gone through in order (functions called,
    other entries logged), the raising callback is the last that is called
    (in [updateListeners] no topic visited later is reached either), and
    the exception leaves the handler.  For the publisher handler this is
    so when the identifier [topic] of its warning is bound or no entry
    before the raising callback needs a warning. *)
Theorem callback_exception_ends_fan_out (s : state) (T : string)
        (pre : list value) (f : nat) (post : list value) :
  lookup (subscribers s) T = Some (pre ++ VFunction f :: post) ->
  (forall data,
      (forall g, In (VFunction g) pre -> throws g [VString data] = false) ->
      throws f [VString data] = true ->
      handle_output T data s =
      (Throw (Raised f),
       map (round T [VString data]) pre ++ [Call f [VString data]])) /\
  (forall message g,
      parseJSON_throws message = false ->
      index0 message = T ->
      topic_global s = Some g \/ invalid_entries pre = [] ->
      (forall h, In (VFunction h) pre ->
                 throws h [VString message] = false) ->
      throws f [VString message] = true ->
      handle_message message s =
      (Throw (Raised f),
       map (round g [VString message]) pre ++ [Call f [VString message]])) /\
  (forall before after,
      for_in (subscribers s) =
        before ++ (T, pre ++ VFunction f :: post) :: after ->
      T <> outstream_topic ->
      (forall t cbs g, In (t, cbs) before -> t <> outstream_topic ->
                       In (VFunction g) cbs -> throws g [] = false) ->
      (forall g, In (VFunction g) pre -> throws g [] = false) ->
      throws f [] = true ->
      fst (fst (updateListeners s)) = Throw (Raised f) /\
      snd (updateListeners s) =
      broadcast before ++ map (round T []) pre ++ [Call f []]).
Proof.
  intros Hl. split; [|split].
  - intros data Hpre Hf. unfold handle_output.
    rewrite (get_own _ _ _ Hl). simpl.
    apply invoke_all_raise_at; auto.
  - intros message g Hp Hk Hg Hpre Hf. subst T.
    rewrite (handle_message_own _ _ _ Hp Hl).
    apply invoke_all_raise_at; assumption.
  - intros before after Hsplit HT Hq Hpre Hf. unfold updateListeners.
    rewrite Hsplit, (update_loop_raise T before after pre f post
                       (topic_global s) HT Hq Hpre Hf).
    simpl. split; reflexivity.
Qed.

(** C6: whatever the state, every call that [updateListeners] makes has no
    argument and is a call of a function registered under a topic other
    than the output topic; and when none of these functions raises,
    [updateListeners] returns after one fan-out without payload for each
    topic but the output topic, in the order in which
    [for (topic in subscribers)] visits the topics, which calls every such
    function. *)
Theorem updateListeners_skips_output_topic (s : state) :
  (forall f a,
      In (f, a) (calls (snd (updateListeners s))) ->
      a = [] /\
      exists t cbs, In (t, cbs) (subscribers s) /\ t <> outstream_topic /\
                    In (VFunction f) cbs) /\
  ((forall t cbs f, In (t, cbs) (subscribers s) -> t <> outstream_topic ->
                    In (VFunction f) cbs -> throws f [] = false) ->
   fst (fst (updateListeners s)) = Normal /\
   snd (updateListeners s) = broadcast (for_in (subscribers s)) /\
   forall t cbs f, In (t, cbs) (subscribers s) -> t <> outstream_topic ->
                   In (VFunction f) cbs ->
                   In (f, []) (calls (snd (updateListeners s)))).
Proof.
  split.
  - intros f a. apply updateListeners_calls_registered.
  - intros Hq. destruct (updateListeners_quiet s Hq) as [Hc Htr].
    split; [exact Hc|]. split; [exact Htr|].
    intros t cbs f Hin Hne Hf. rewrite Htr.
    apply (broadcast_In _ t cbs f); [|exact Hne | exact Hf].
    apply In_for_in. exact Hin.
Qed.

(** * Where the code leaves the specification *)

(** C1: a callback is registered under "prob.foo", the publisher socket is
    open, and the frame [["foo", 42]] arrives.  The handler indexes the
    text of the frame, not the decoded envelope: it looks for subscribers
    of "[", finds none, and calls nothing, whatever the callbacks and
    [jQuery.parseJSON] do. *)
Theorem publisher_frame_reaches_no_subscriber :
  let s := fst (run [AddListener "prob.foo" (VFunction 0);
                     LookupSuccess 0 "ws://localhost/pub"] initial) in
  lookup (subscribers s) "prob.foo" = Some [VFunction 0] /\
  nth_error (sockets s) 0 = Some ("ws://localhost/pub", HandleMessage) /\
  index0 foo_frame = "[" /\
  snd (step (SocketMessage 0 foo_frame) s) = [].
Proof.
  repeat split. simpl. unfold socket_message. simpl.
  pose proof (handle_message_unrouted foo_frame
                (fst (run [AddListener "prob.foo" (VFunction 0);
                           LookupSuccess 0 "ws://localhost/pub"] initial))
                eq_refl) as H.
  simpl in H.
  destruct (handle_message foo_frame _) as [c tr]. exact H.
Qed.

(** C7: the number 42 and then a callback are registered under "[", the
    publisher socket is open, no [updateListeners] has run, and the frame
    [["foo", 42]] arrives.  At the entry 42 the handler evaluates the
    arguments of [debug.error], among them the identifier [topic], which is
    bound nowhere: the handler ends in a ReferenceError (or before that in
    [jQuery.parseJSON]), logs no warning and never calls the callback. *)
Theorem publisher_handler_stops_at_invalid_entry :
  let s := fst (run [AddListener "[" (VNumber 42);
                     AddListener "[" (VFunction 0);
                     LookupSuccess 0 "ws://localhost/pub"] initial) in
  lookup (subscribers s) "[" = Some [VNumber 42; VFunction 0] /\
  topic_global s = None /\
  nth_error (sockets s) 0 = Some ("ws://localhost/pub", HandleMessage) /\
  step (SocketMessage 0 foo_frame) s =
  (Throw (if parseJSON_throws foo_frame then InvalidJSON else ReferenceError),
   s, []).
Proof.
  repeat split. simpl. unfold socket_message, handle_message. simpl.
  destruct (parseJSON_throws foo_frame); reflexivity.
Qed.

(** C10: [subscribers] inherits "constructor" from [Object.prototype], so
    the test [topic in subscribers] succeeds in the initial state, what is
    read has no [push], and the call ends in a TypeError with nothing
    registered. *)
Theorem addListener_raises_on_inherited_name :
  has_property (subscribers initial) "constructor" = true /\
  addListener "constructor" (VFunction 0) initial =
  (Throw TypeError, initial, []).
Proof. split; reflexivity. Qed.

(** * Further properties of the dispatcher *)

Lemma step_keeps_entries (o : op) (s : state) (T : string) (l : list value) :
  lookup (subscribers s) T = Some l ->
  exists l', lookup (subscribers (snd (fst (step o s)))) T = Some (l ++ l').
Proof.
  intros Hl. destruct o as [t v| |k addr|k|k data]; simpl.
  - destruct (string_dec t T) as [->|Hne].
    + rewrite (addListener_existing _ v _ _ Hl). simpl.
      exists [v]. apply lookup_push_same; exact Hl.
    + exists []. rewrite app_nil_r, <- Hl.
      destruct (lookup (subscribers s) t) as [l0|] eqn:El.
      * rewrite (addListener_existing _ v _ _ El). simpl.
        apply lookup_push_other; exact Hne.
      * destruct (inherited t) eqn:Ei.
        -- rewrite addListener_inherited by assumption. reflexivity.
        -- rewrite addListener_new by assumption. simpl.
           apply lookup_create_other; exact Hne.
  - exists []. rewrite app_nil_r. unfold updateListeners.
    destruct (update_loop (for_in (subscribers s)) (topic_global s))
      as [[c g] tr].
    exact Hl.
  - exists []. rewrite app_nil_r. unfold lookup_success.
    destruct (nth_error (pending s) k) as [[u h]|]; exact Hl.
  - exists []. rewrite app_nil_r. unfold lookup_failure.
    destruct (nth_error (pending s) k) as [[u h]|]; exact Hl.
  - exists []. rewrite app_nil_r. unfold socket_message.
    destruct (nth_error (sockets s) k) as [[u [t|]]|];
      [destruct (handle_output t data s)
      |destruct (handle_message data s)|]; exact Hl.
Qed.

(** X1: there is no way to unsubscribe.  Whatever runs, from whatever
    state, the array of a topic keeps the entries it has, at their
    positions: later registrations are added behind them. *)
Theorem subscriptions_are_permanent (ops : list op) (s : state) (T : string)
        (l : list value) :
  lookup (subscribers s) T = Some l ->
  exists l',
    lookup (subscribers (fst (run ops s))) T = Some (l ++ l') /\
    forall i v, nth_error l i = Some v -> nth_error (l ++ l') i = Some v.
Proof.
  revert s l. induction ops as [|o ops IH]; intros s l Hl.
  - exists []. rewrite app_nil_r. split; [exact Hl | auto].
  - destruct (step_keeps_entries o s T l Hl) as [l1 H1].
    simpl. destruct (step o s) as [[c s1] tr1]; simpl in H1.
    destruct (IH s1 _ H1) as (l2 & H2 & _).
    destruct (run ops s1) as [s2 tr2]; simpl in *.
    exists (l1 ++ l2). split; [rewrite app_assoc; exact H2|].
    intros i v Hi. rewrite nth_error_app1; [exact Hi|].
    apply nth_error_Some. rewrite Hi. discriminate.
Qed.

(** X2: what [addListener] does for a topic that [subscribers] does not
    inherit, whatever the entry: it returns, the entry is the last of the
    topic's array, the arrays of the other topics are as before, no
    callback is called, a flag that is set stays set, and no socket is
    touched. *)
Theorem addListener_contract (topic : string) (callback : value) (s : state) :
  inherited topic = false ->
  let s' := snd (fst (addListener topic callback s)) in
  fst (fst (addListener topic callback s)) = Normal /\
  lookup (subscribers s') topic =
    Some (match lookup (subscribers s) topic with
          | Some l => l ++ [callback]
          | None => [callback]
          end) /\
  (forall T, T <> topic ->
             lookup (subscribers s') T = lookup (subscribers s) T) /\
  calls (snd (addListener topic callback s)) = [] /\
  (outstream_socket s = true -> outstream_socket s' = true) /\
  (publisher_socket s = true -> publisher_socket s' = true) /\
  sockets s' = sockets s.
Proof.
  intros Hi s'. unfold s'.
  destruct (lookup (subscribers s) topic) as [l|] eqn:El.
  - rewrite (addListener_existing _ callback _ _ El). simpl.
    repeat split; auto.
    + apply lookup_push_same; exact El.
    + intros T HT. apply lookup_push_other; congruence.
  - rewrite addListener_new by assumption. simpl.
    repeat split; auto.
    + apply lookup_create_same; exact El.
    + intros T HT. apply lookup_create_other; congruence.
    + destruct ((topic =? outstream_topic) && negb (outstream_socket s)),
               (negb (publisher_socket s)); reflexivity.
    + intros H; rewrite H; reflexivity.
Qed.

(** X3: a frame on the publisher socket whose first character names no
    topic is dropped: the handler returns, the state is as before, nothing
    is called and nothing is logged.  What [subscribers] inherits from
    [Object.prototype] is never taken for a subscriber list. *)
Theorem unrouted_publisher_frame_is_dropped (message : string) (s : state)
        (k : nat) (addr : string) :
  parseJSON_throws message = false ->
  lookup (subscribers s) (index0 message) = None ->
  nth_error (sockets s) k = Some (addr, HandleMessage) ->
  step (SocketMessage k message) s = (Normal, s, []).
Proof.
  intros Hp Hl Hk. simpl. unfold socket_message. rewrite Hk.
  unfold handle_message, get.
  rewrite Hp, Hl, index0_not_inherited. reflexivity.
Qed.

Lemma calls_round (t : string) (args : list value) (l : list value) :
  calls (map (round t args) l) = map (fun f => (f, args)) (functions_of l).
Proof.
  induction l as [|v l IH]; [reflexivity|].
  unfold calls, functions_of in *. simpl. rewrite IH, map_app.
  destruct v; reflexivity.
Qed.

Lemma warnings_round (t : string) (args : list value) (l : list value) :
  warnings (map (round t args) l) = map (pair t) (invalid_entries l).
Proof.
  induction l as [|v l IH]; [reflexivity|].
  unfold warnings, invalid_entries in *. simpl. rewrite IH.
  destruct v; reflexivity.
Qed.

(** X4: the output handler goes through the whole array of its topic when
    no callback raises: it calls the functions in their order with the
    frame as it came, logs one warning under the output handler's own topic
    for each other entry, in their order, and returns. *)
Theorem output_handler_skips_invalid_entries (topic data : string)
        (s : state) (l : list value) :
  lookup (subscribers s) topic = Some l ->
  (forall f, In (VFunction f) l -> throws f [VString data] = false) ->
  fst (handle_output topic data s) = Normal /\
  calls (snd (handle_output topic data s)) =
    map (fun f => (f, [VString data])) (functions_of l) /\
  warnings (snd (handle_output topic data s)) =
    map (pair topic) (invalid_entries l).
Proof.
  intros Hl Hq. rewrite (handle_output_skips topic data s l Hl Hq). simpl.
  rewrite calls_round, warnings_round. auto.
Qed.

Lemma invoke_all_warnings (topic : option string) (args l : list value)
      (t : string) (v : value) :
  In (t, v) (warnings (snd (invoke_all topic args l))) ->
  topic = Some t /\ In v l /\ is_function v = false.
Proof.
  induction l as [|entry rest IH]; [intros []|].
  destruct entry; simpl;
    try (destruct topic as [t0|]; [|intros []];
         destruct (invoke_all (Some t0) args rest); simpl in *;
         intros [H|H];
         [inversion H; subst; auto
         |destruct (IH H) as (H1 & H2 & H3); auto]).
  destruct (throws f args); [intros []|].
  destruct (invoke_all topic args rest); simpl in *.
  intros H. destruct (IH H) as (H1 & H2 & H3); auto.
Qed.

Lemma update_loop_last (entries : registry) (t : string) (cbs : list value)
      (g : option string) :
  fst (fst (update_loop (entries ++ [(t, cbs)]) g)) = Normal ->
  snd (fst (update_loop (entries ++ [(t, cbs)]) g)) = Some t.
Proof.
  revert g. induction entries as [|[t0 cbs0] entries IH]; intros g; simpl.
  - destruct (t =? outstream_topic); [reflexivity|].
    destruct (invoke_all (Some t) [] cbs) as [[|e] tr]; simpl;
      [reflexivity | discriminate].
  - destruct (t0 =? outstream_topic); [apply IH|].
    destruct (invoke_all (Some t0) [] cbs0) as [[|e] tr]; simpl;
      [|discriminate].
    specialize (IH (Some t0)).
    destruct (update_loop (entries ++ [(t, cbs)]) (Some t0)) as [[c g'] tr'].
    exact IH.
Qed.

(** X5: [updateListeners] leaves the last topic it has visited in the
    global [topic], and the publisher handler reads that global.  After a
    call of [updateListeners] that returns, the publisher handler does not
    end in a ReferenceError at an entry that is not a function, and every
    warning it logs names the topic that [for (topic in subscribers)] has
    visited last, whatever the topic of the frame. *)
Theorem publisher_warnings_name_last_refreshed_topic
        (s : state) (entries : registry) (t : string) (cbs : list value)
        (message : string) :
  for_in (subscribers s) = entries ++ [(t, cbs)] ->
  fst (fst (updateListeners s)) = Normal ->
  let s' := snd (fst (updateListeners s)) in
  topic_global s' = Some t /\
  subscribers s' = subscribers s /\
  fst (handle_message message s') <> Throw ReferenceError /\
  forall t' v, In (t', v) (warnings (snd (handle_message message s'))) ->
               t' = t /\
               exists l, lookup (subscribers s) (index0 message) = Some l /\
                         In v l.
Proof.
  intros Hs Hc s'. unfold s', updateListeners in *.
  pose proof (update_loop_last entries t cbs (topic_global s)) as Hlast.
  rewrite <- Hs in Hlast.
  destruct (update_loop (for_in (subscribers s)) (topic_global s))
    as [[c g] tr].
  simpl in *. specialize (Hlast Hc). subst g.
  split; [reflexivity|]. split; [reflexivity|].
  unfold handle_message, get.
  cbn [subscribers topic_global set_topic_global].
  destruct (parseJSON_throws message);
    [split; [discriminate | intros t' v []]|].
  rewrite index0_not_inherited.
  destruct (lookup (subscribers s) (index0 message)) as [l|];
    [|split; [discriminate | intros t' v []]].
  simpl. split.
  - destruct (invoke_all_completion t [VString message] l) as [H|[f H]];
      rewrite H; discriminate.
  - intros t' v H. apply invoke_all_warnings in H.
    destruct H as (H1 & H2 & _). inversion H1; subst.
    split; [reflexivity|]. exists l. auto.
Qed.

Lemma remove_nth_cons {A : Type} (k : nat) (a : A) (l : list A) :
  remove_nth (S k) (a :: l) = a :: remove_nth k l.
Proof. reflexivity. Qed.

Lemma filter_remove_nth {A : Type} (f : A -> bool) (k : nat) (l : list A)
      (x : A) :
  nth_error l k = Some x ->
  length (filter f l) =
  length (filter f (remove_nth k l)) + (if f x then 1 else 0).
Proof.
  revert l. induction k as [|k IH]; intros [|a l] H; simpl in H;
    try discriminate.
  - inversion H; subst. unfold remove_nth. simpl.
    destruct (f x); simpl; lia.
  - rewrite remove_nth_cons. simpl. specialize (IH l H).
    destruct (f a); simpl; lia.
Qed.

Lemma step_channels (o : op) (s : state) :
  output_channels s <= (if outstream_socket s then 1 else 0) /\
  publisher_channels s <= (if publisher_socket s then 1 else 0) ->
  let s' := snd (fst (step o s)) in
  output_channels s' <= (if outstream_socket s' then 1 else 0) /\
  publisher_channels s' <= (if publisher_socket s' then 1 else 0).
Proof.
  intros [Ho Hp]. destruct o as [t v| |k addr|k|k data]; simpl.
  - destruct (lookup (subscribers s) t) as [l|] eqn:El.
    + rewrite (addListener_existing _ v _ _ El). split; assumption.
    + destruct (inherited t) eqn:Ei.
      * rewrite addListener_inherited by assumption. split; assumption.
      * rewrite addListener_new by assumption.
        unfold output_channels, publisher_channels in *. simpl.
        rewrite !filter_app, !length_app in *.
        destruct (t =? outstream_topic), (outstream_socket s),
                 (publisher_socket s); simpl in *; lia.
  - unfold updateListeners.
    destruct (update_loop (for_in (subscribers s)) (topic_global s))
      as [[c g] tr].
    split; assumption.
  - unfold lookup_success.
    destruct (nth_error (pending s) k) as [[u h]|] eqn:En;
      [|split; assumption].
    unfold output_channels, publisher_channels in *. simpl.
    rewrite !filter_app, !length_app in *.
    rewrite (filter_remove_nth is_output_handler k _ _ En) in Ho.
    rewrite (filter_remove_nth is_publisher_handler k _ _ En) in Hp.
    unfold is_output_handler, is_publisher_handler in *. simpl in *.
    destruct h; simpl in *; lia.
  - unfold lookup_failure.
    destruct (nth_error (pending s) k) as [[u h]|] eqn:En;
      [|split; assumption].
    unfold output_channels, publisher_channels in *. simpl.
    rewrite !filter_app, !length_app in *.
    rewrite (filter_remove_nth is_output_handler k _ _ En) in Ho.
    rewrite (filter_remove_nth is_publisher_handler k _ _ En) in Hp.
    lia.
  - unfold socket_message.
    destruct (nth_error (sockets s) k) as [[u [t|]]|];
      [destruct (handle_output t data s)
      |destruct (handle_message data s)|]; split; assumption.
Qed.

Lemma run_channels (ops : list op) (s : state) :
  output_channels s <= (if outstream_socket s then 1 else 0) /\
  publisher_channels s <= (if publisher_socket s then 1 else 0) ->
  output_channels (fst (run ops s))
    <= (if outstream_socket (fst (run ops s)) then 1 else 0) /\
  publisher_channels (fst (run ops s))
    <= (if publisher_socket (fst (run ops s)) then 1 else 0).
Proof.
  revert s. induction ops as [|o ops IH]; intros s H; [exact H|].
  pose proof (step_channels o s H) as H1. simpl in *.
  destruct (step o s) as [[c s1] tr1]. simpl in H1.
  specialize (IH s1 H1). destruct (run ops s1) as [s2 tr2]. exact IH.
Qed.

(** X6: each of the two channels exists at most once.  In every state
    reached from the initial one, at most one request or socket has the
    output handler and at most one the publisher handler; and a flag that
    is set stays set in whatever follows, also after the answer to the
    lookup was a failure: nothing opens the channel again. *)
Theorem at_most_one_channel_each (ops : list op) :
  let s := fst (run ops initial) in
  output_channels s <= 1 /\
  publisher_channels s <= 1 /\
  (forall more, outstream_socket s = true ->
                outstream_socket (fst (run more s)) = true /\
                opens "outstream" (snd (run more s)) = 0) /\
  (forall more, publisher_socket s = true ->
                publisher_socket (fst (run more s)) = true /\
                opens "pubstream" (snd (run more s)) = 0).
Proof.
  intros s.
  assert (H0 : output_channels initial
                 <= (if outstream_socket initial then 1 else 0) /\
               publisher_channels initial
                 <= (if publisher_socket initial then 1 else 0))
    by (split; apply Nat.le_refl).
  destruct (run_channels ops initial H0) as [Ho Hp]. fold s in Ho, Hp.
  pose proof (run_inv ops initial initial_inv) as Hinv. fold s in Hinv.
  split; [destruct (outstream_socket s); lia|].
  split; [destruct (publisher_socket s); lia|].
  split; intros more Hf.
  - destruct (run_outstream more s Hinv) as [H1 H2].
    rewrite Hf in H1, H2. auto.
  - destruct (run_publisher more s Hinv) as [H1 H2].
    rewrite Hf in H1, H2. auto.
Qed.

Lemma In_push (o : registry) (k : string) (v : value) (t : string)
      (cbs : list value) :
  In (t, cbs) (push o k v) ->
  In (t, cbs) o \/ exists l, In (t, l) o /\ t = k /\ cbs = l ++ [v].
Proof.
  induction o as [|[k0 l0] o IH]; simpl; [intros []|].
  destruct (k0 =? k) eqn:E; simpl.
  - apply String.eqb_eq in E; subst k0.
    intros [H|H]; [|auto]. inversion H; subst.
    right. exists l0. auto.
  - intros [H|H]; [auto|].
    destruct (IH H) as [H'|(l & H1 & H2 & H3)]; [auto|].
    right. exists l. auto.
Qed.

Lemma addListener_calls (topic : string) (callback : value) (s : state) :
  calls (snd (addListener topic callback s)) = [].
Proof.
  destruct (lookup (subscribers s) topic) as [l|] eqn:El.
  - rewrite (addListener_existing _ callback _ _ El). reflexivity.
  - destruct (inherited topic) eqn:Ei.
    + rewrite addListener_inherited by assumption. reflexivity.
    + rewrite addListener_new by assumption. simpl.
      destruct ((topic =? outstream_topic) && negb (outstream_socket s)),
               (negb (publisher_socket s)); reflexivity.
Qed.

Lemma handle_output_calls (topic data : string) (s : state) (f : nat)
      (a : list value) :
  In (f, a) (calls (snd (handle_output topic data s))) ->
  a = [VString data] /\
  exists l, lookup (subscribers s) topic = Some l /\ In (VFunction f) l.
Proof.
  unfold handle_output, get.
  destruct (lookup (subscribers s) topic) as [l|] eqn:El.
  - simpl. intros Hin. apply invoke_all_calls in Hin.
    destruct Hin as [Ha Hf]. split; [exact Ha|]. exists l. auto.
  - destruct (lookup Object_prototype topic) as [n|]; [|intros []].
    simpl. intros Hin. apply invoke_all_calls in Hin.
    destruct Hin as [_ Hf]. apply repeat_spec in Hf. discriminate.
Qed.

Lemma step_calls_registered (o : op) (s : state) (f : nat) (a : list value) :
  In (f, a) (calls (snd (step o s))) ->
  (exists t cbs, In (t, cbs) (subscribers s) /\ In (VFunction f) cbs) /\
  (a = [] \/ exists k d, o = SocketMessage k d /\ a = [VString d]).
Proof.
  destruct o as [t v| |k addr|k|k data]; simpl.
  - rewrite addListener_calls. intros [].
  - intros Hin.
    destruct (updateListeners_calls_registered s f a Hin)
      as (Ha & t & cbs & H1 & _ & H3).
    split; [exists t, cbs; auto | auto].
  - unfold lookup_success.
    destruct (nth_error (pending s) k) as [[u h]|]; intros [].
  - unfold lookup_failure.
    destruct (nth_error (pending s) k) as [[u h]|]; intros [].
  - unfold socket_message.
    destruct (nth_error (sockets s) k) as [[u [t|]]|]; [| |intros []].
    + pose proof (handle_output_calls t data s f a) as H.
      destruct (handle_output t data s) as [c tr]. simpl in *.
      intros Hin. destruct (H Hin) as (Ha & l & Hl & Hf). split.
      * exists t, l. split; [apply lookup_In; exact Hl | exact Hf].
      * right. exists k, data. auto.
    + pose proof (handle_message_calls data s f a) as H.
      destruct (handle_message data s) as [c tr]. simpl in *.
      intros Hin. destruct (H Hin) as (Ha & l & Hl & Hf). split.
      * exists (index0 data), l. split; [apply lookup_In; exact Hl | exact Hf].
      * right. exists k, data. auto.
Qed.

Lemma step_entries (o : op) (s : state) (t : string) (cbs : list value)
      (v : value) :
  In (t, cbs) (subscribers (snd (fst (step o s)))) -> In v cbs ->
  (exists cbs0, In (t, cbs0) (subscribers s) /\ In v cbs0) \/
  o = AddListener t v.
Proof.
  destruct o as [t0 v0| |k addr|k|k data]; simpl.
  - destruct (lookup (subscribers s) t0) as [l|] eqn:El.
    + rewrite (addListener_existing _ v0 _ _ El). simpl. intros Hin Hv.
      apply In_push in Hin. destruct Hin as [Hin|(l0 & H1 & H2 & H3)].
      * left. exists cbs. auto.
      * subst. apply in_app_or in Hv. destruct Hv as [Hv|[Hv|[]]].
        -- left. exists l0. auto.
        -- subst. auto.
    + destruct (inherited t0) eqn:Ei.
      * rewrite addListener_inherited by assumption. simpl.
        intros Hin Hv. left. exists cbs. auto.
      * rewrite addListener_new by assumption. simpl. unfold create.
        intros Hin Hv. apply in_app_or in Hin.
        destruct Hin as [Hin|[Hin|[]]].
        -- left. exists cbs. auto.
        -- inversion Hin; subst. destruct Hv as [Hv|[]]. subst. auto.
  - unfold updateListeners.
    destruct (update_loop (for_in (subscribers s)) (topic_global s))
      as [[c g] tr].
    simpl. intros Hin Hv. left. exists cbs. auto.
  - unfold lookup_success.
    destruct (nth_error (pending s) k) as [[u h]|]; simpl;
      intros Hin Hv; left; exists cbs; auto.
  - unfold lookup_failure.
    destruct (nth_error (pending s) k) as [[u h]|]; simpl;
      intros Hin Hv; left; exists cbs; auto.
  - unfold socket_message.
    destruct (nth_error (sockets s) k) as [[u [t1|]]|];
      [destruct (handle_output t1 data s)
      |destruct (handle_message data s)|];
      simpl; intros Hin Hv; left; exists cbs; auto.
Qed.

Lemma run_calls_registered (ops : list op) (s : state) (f : nat)
      (a : list value) :
  In (f, a) (calls (snd (run ops s))) ->
  ((exists t cbs, In (t, cbs) (subscribers s) /\ In (VFunction f) cbs) \/
   (exists T, In (AddListener T (VFunction f)) ops)) /\
  (a = [] \/ exists d, In d (frames ops) /\ a = [VString d]).
Proof.
  revert s. induction ops as [|o ops IH]; intros s; [intros []|].
  simpl.
  pose proof (step_calls_registered o s f a) as Hstep.
  pose proof (step_entries o s) as Hent.
  destruct (step o s) as [[c s1] tr1]. simpl in *.
  specialize (IH s1). destruct (run ops s1) as [s2 tr2]. simpl in *.
  rewrite calls_app. intros Hin. apply in_app_or in Hin.
  destruct Hin as [Hin|Hin].
  - destruct (Hstep Hin) as [Hreg Ha]. split; [left; exact Hreg|].
    destruct Ha as [Ha|(k & d & Ho & Ha)]; [auto|].
    right. exists d. subst o. split; [now left | exact Ha].
  - destruct (IH Hin) as [Hreg Ha]. split.
    + destruct Hreg as [(t & cbs & H1 & H2)|(T & HT)].
      * destruct (Hent t cbs (VFunction f) H1 H2) as [(cbs0 & H3 & H4)|Ho].
        -- left. exists t, cbs0. auto.
        -- right. exists t. left. exact Ho.
      * right. exists T. right. exact HT.
    + destruct Ha as [Ha|(d & Hd & Ha)]; [auto|].
      right. exists d. split; [|exact Ha].
      apply in_or_app. right. exact Hd.
Qed.

(** X7: the dispatcher calls nothing but what was registered.  Every call
    of a callback in a run from the initial state is the call of a function
    that some call of [addListener] in the run has passed, and its
    arguments are either none or the text of a frame that a socket has
    delivered, as it came. *)
Theorem only_registered_functions_are_called (ops : list op) (f : nat)
        (a : list value) :
  In (f, a) (calls (snd (run ops initial))) ->
  (exists T, In (AddListener T (VFunction f)) ops) /\
  (a = [] \/ exists d, In d (frames ops) /\ a = [VString d]).
Proof.
  intros Hin. destruct (run_calls_registered ops initial f a Hin) as [H Ha].
  split; [|exact Ha].
  destruct H as [(t & cbs & [] & _)|H]. exact H.
Qed.

(** * The request/response methods *)

Lemma chars_append (a b : string) :
  chars (a ++ b) = chars a ++ chars b.
Proof. induction a as [|c a IH]; simpl; [|rewrite IH]; reflexivity. Qed.

Lemma chars_map_chars (f : ascii -> ascii) (s : string) :
  chars (map_chars f s) = map f (chars s).
Proof. induction s as [|c s IH]; simpl; [|rewrite IH]; reflexivity. Qed.

Lemma map_chars_append (f : ascii -> ascii) (a b : string) :
  map_chars f (a ++ b)%string = (map_chars f a ++ map_chars f b)%string.
Proof. induction a as [|c a IH]; simpl; [|rewrite IH]; reflexivity. Qed.

Lemma length_append (a b : string) :
  String.length (a ++ b) = String.length a + String.length b.
Proof. induction a as [|c a IH]; simpl; [|rewrite IH]; reflexivity. Qed.

Lemma append_assoc (a b c : string) :
  ((a ++ b) ++ c)%string = (a ++ b ++ c)%string.
Proof. induction a as [|x a IH]; simpl; [|rewrite IH]; reflexivity. Qed.

Lemma slashes_no_backslash (s : string) : ~ In backslash (chars (slashes s)).
Proof.
  unfold slashes. rewrite chars_map_chars. intros H.
  apply in_map_iff in H. destruct H as (c & Hc & _).
  destruct (c =? backslash)%char eqn:E.
  - discriminate.
  - apply Ascii.eqb_neq in E. contradiction.
Qed.

Lemma slashes_fixed (s : string) :
  ~ In backslash (chars s) -> slashes s = s.
Proof.
  unfold slashes. induction s as [|c s IH]; simpl; [reflexivity|].
  intros H. destruct (c =? backslash)%char eqn:E.
  - apply Ascii.eqb_eq in E. subst. exfalso. apply H. now left.
  - rewrite IH; [reflexivity|]. intros Hin. apply H. now right.
Qed.

Lemma slashes_idempotent (s : string) : slashes (slashes s) = slashes s.
Proof. apply slashes_fixed. apply slashes_no_backslash. Qed.

Lemma slashes_append (a b : string) :
  slashes (a ++ b) = (slashes a ++ slashes b)%string.
Proof. apply map_chars_append. Qed.

Lemma dots_no_separator (s : string) :
  ~ In "/"%char (chars (dots s)) /\ ~ In backslash (chars (dots s)).
Proof.
  unfold dots. rewrite !chars_map_chars, map_map. split; intros H;
    apply in_map_iff in H; destruct H as (c & Hc & _); revert Hc;
    destruct (c =? backslash)%char eqn:E1; simpl;
    try (destruct (c =? "/")%char eqn:E2); try discriminate; intros Hc;
    subst; discriminate.
Qed.

Lemma dots_append (a b : string) :
  dots (a ++ b) = (dots a ++ dots b)%string.
Proof. unfold dots. rewrite !map_chars_append. reflexivity. Qed.

Lemma strip_py_suffix (s : string) : strip_py (s ++ ".py") = s.
Proof.
  induction s as [|c s IH]; [reflexivity|].
  change (strip_py (String c s ++ ".py"))
    with (if String c (s ++ ".py") =? ".py" then EmptyString
          else String c (strip_py (s ++ ".py"))).
  destruct (String c (s ++ ".py") =? ".py") eqn:E.
  - apply String.eqb_eq in E.
    apply (f_equal String.length) in E. simpl in E.
    rewrite length_append in E. simpl in E. lia.
  - rewrite IH. reflexivity.
Qed.

Lemma test_any_then_suffix (suffix pre : string) (c : ascii) :
  any_char c = true -> test_any_then suffix (pre ++ String c suffix) = true.
Proof.
  intros Hc. induction pre as [|x pre IH]; simpl.
  - rewrite Hc, String.eqb_refl. reflexivity.
  - rewrite IH. apply orb_true_r.
Qed.

Lemma test_any_then_inv (suffix name : string) :
  test_any_then suffix name = true ->
  exists pre c, name = (pre ++ String c suffix)%string /\ any_char c = true.
Proof.
  induction name as [|x name IH]; simpl; [discriminate|].
  intros H. apply orb_true_iff in H. destruct H as [H|H].
  - apply andb_true_iff in H. destruct H as [Hx Hs].
    apply String.eqb_eq in Hs. subst. exists EmptyString, x. auto.
  - destruct (IH H) as (pre & c & Hn & Hc). subst.
    exists (String x pre), c. auto.
Qed.

Lemma escape_newline_fixed (data : string) :
  ~ In newline (chars data) -> escape_newline data = data.
Proof.
  induction data as [|c data IH]; simpl; [reflexivity|].
  intros H. destruct (c =? newline)%char eqn:E.
  - apply Ascii.eqb_eq in E. subst. exfalso. apply H. now left.
  - rewrite IH; [reflexivity|]. intros Hin. apply H. now right.
Qed.

Lemma escape_newline_first (pre post : string) :
  ~ In newline (chars pre) ->
  escape_newline (pre ++ String newline post) =
  (pre ++ String backslash (String "n" post))%string.
Proof.
  induction pre as [|c pre IH]; simpl; [reflexivity|].
  intros H. destruct (c =? newline)%char eqn:E.
  - apply Ascii.eqb_eq in E. subst. exfalso. apply H. now left.
  - rewrite IH; [reflexivity|]. intros Hin. apply H. now right.
Qed.

(** X8: the addresses of the file methods.  [removeFile] addresses what
    [getFile] reads and [createFolder] what [setFile] writes, with either
    kind of separator and never a backslash in the address; but
    [setFile] puts a slash after "file" and [getFile] does not, so that for
    the same path the two never address the same file: what
    [setFile(filepath)] writes is read by [getFile('/' + filepath)]. *)
Theorem file_addresses (filepath contents : string) (f : nat)
        (eh eh' : value) :
  urls (removeFile filepath) = urls (getFile filepath (VFunction f) eh) /\
  urls (createFolder filepath eh) = urls (setFile filepath contents eh') /\
  urls (getFile (slashes filepath) (VFunction f) eh) =
    urls (getFile filepath (VFunction f) eh) /\
  urls (setFile (slashes filepath) contents eh) =
    urls (setFile filepath contents eh) /\
  urls (setFile filepath contents eh) <>
    urls (getFile filepath (VFunction f) eh') /\
  urls (getFile (String "/" filepath) (VFunction f) eh) =
    urls (setFile filepath contents eh') /\
  (forall u, In u (urls (getFile filepath (VFunction f) eh)
                     ++ urls (setFile filepath contents eh')) ->
             ~ In backslash (chars u)).
Proof.
  unfold removeFile, getFile, createFolder, setFile, urls. simpl.
  rewrite slashes_idempotent.
  repeat split.
  - intros H. inversion H as [H1].
    apply (f_equal String.length) in H1. simpl in H1. lia.
  - intros u [<-|[<-|[]]] Hin; simpl in Hin;
      repeat (destruct Hin as [Hin|Hin]; [discriminate|]);
      exact (slashes_no_backslash filepath Hin).
Qed.

Lemma exec_path_no_backslash (filepath : string) :
  ~ In backslash (chars (exec_path filepath)).
Proof.
  unfold exec_path. pose proof (slashes_no_backslash filepath) as H.
  destruct (slashes filepath) as [|c rest]; [exact H|].
  destruct (c =? "/")%char; [|exact H].
  intros Hin. apply H. now right.
Qed.

(** X9: the file name that [execFile] sends has forward slashes only; one
    leading separator of either kind is dropped, and no more than one, so
    that a path that starts with two separators is still sent with a
    leading slash. *)
Theorem execFile_path (filepath : string) :
  execFile filepath =
    [Ajax (mkRequest (Some POST) "exec" None
                     [("filename", VString (exec_path filepath))]
                     Refresh (Given VUndefined))] /\
  ~ In backslash (chars (exec_path filepath)) /\
  exec_path (String "/" filepath) = slashes filepath /\
  exec_path (String backslash filepath) = slashes filepath /\
  execFile (slashes filepath) = execFile filepath /\
  (forall c rest, filepath = String c rest -> c <> "/"%char ->
                  c <> backslash -> exec_path filepath = slashes filepath) /\
  exec_path (String "/" (String "/" filepath)) =
    String "/" (slashes filepath).
Proof.
  split; [reflexivity|]. split; [apply exec_path_no_backslash|].
  split; [reflexivity|]. split; [reflexivity|]. split; [|split].
  - unfold execFile, exec_path. rewrite slashes_idempotent. reflexivity.
  - intros c rest -> Hs Hb. unfold exec_path, slashes. simpl.
    apply Ascii.eqb_neq in Hs, Hb. rewrite Hb, Hs. reflexivity.
  - reflexivity.
Qed.

(** X10: [importFile] turns a path into a dotted module name: it drops
    one trailing ".py" and writes a dot for every separator of either kind,
    so that "dir/name.py" is imported as "dir.name"; the name it sends
    holds no separator. *)
Theorem importFile_command (dir name filepath : string)
        (callback errorHandler : value) :
  importFile (dir ++ "/" ++ name ++ ".py") callback errorHandler =
    issueCommand ("from " ++ dots dir ++ "." ++ dots name ++ " import *")
                 callback errorHandler /\
  importFile (dir ++ String backslash (name ++ ".py")) callback errorHandler =
    issueCommand ("from " ++ dots dir ++ "." ++ dots name ++ " import *")
                 callback errorHandler /\
  importFile filepath callback errorHandler =
    issueCommand ("from " ++ dots (strip_py filepath) ++ " import *")
                 callback errorHandler /\
  ~ In "/"%char (chars (dots (strip_py filepath))) /\
  ~ In backslash (chars (dots (strip_py filepath))).
Proof.
  unfold importFile. repeat split.
  - replace (dir ++ "/" ++ name ++ ".py")%string
      with ((dir ++ "/" ++ name) ++ ".py")%string
      by (rewrite !append_assoc; reflexivity).
    rewrite strip_py_suffix, !dots_append, !append_assoc. reflexivity.
  - replace (dir ++ String backslash (name ++ ".py"))%string
      with ((dir ++ String backslash name) ++ ".py")%string
      by (rewrite !append_assoc; reflexivity).
    rewrite strip_py_suffix.
    change (String backslash name)
      with (String backslash EmptyString ++ name)%string.
    rewrite !dots_append, !append_assoc. reflexivity.
  - apply dots_no_separator.
  - apply dots_no_separator.
Qed.

Lemma suffix_py_not_json (pre : string) (c : ascii) :
  test_any_then "json" (pre ++ String c "py") = false.
Proof.
  destruct (test_any_then "json" (pre ++ String c "py")) eqn:E;
    [|reflexivity].
  apply test_any_then_inv in E. destruct E as (pre' & c' & H & _).
  apply (f_equal chars) in H. rewrite !chars_append in H. simpl in H.
  change (chars pre ++ [c; "p"%char; "y"%char])
    with (chars pre ++ [c; "p"%char] ++ ["y"%char]) in H.
  change (chars pre' ++ [c'; "j"%char; "s"%char; "o"%char; "n"%char])
    with (chars pre' ++ [c'; "j"%char; "s"%char; "o"%char] ++ ["n"%char])
    in H.
  rewrite !app_assoc in H. apply app_inj_tail in H.
  destruct H as [_ H]. discriminate.
Qed.

Lemma in_folder_suffix (folderpath : option string) (pre suffix : string) :
  exists pre', in_folder folderpath (pre ++ suffix) = (pre' ++ suffix)%string.
Proof.
  destruct folderpath as [[|x f]|]; simpl.
  - exists pre. reflexivity.
  - exists (String x (f ++ "/" ++ pre)). simpl.
    rewrite append_assoc. reflexivity.
  - exists pre. reflexivity.
Qed.

(** X11: the contents that [newFile] writes are chosen by the end of the
    name, folder included.  A name that ends with "json" after at least
    one character gets "[]".  A name that ends with "py" after at least
    one character gets the Python header that quotes the name: the dot of
    the pattern is not escaped, so that the character before "py" need not
    be a dot.  Every other name gets an empty file. *)
Theorem newFile_contents (folderpath : option string) (pre : string)
        (c : ascii) :
  any_char c = true ->
  (let name := in_folder folderpath (pre ++ String c "json") in
   answer (NewFile folderpath) (pre ++ String c "json") =
   setFile name "[]" VUndefined) /\
  (let name := in_folder folderpath (pre ++ String c "py") in
   answer (NewFile folderpath) (pre ++ String c "py") =
   setFile name (python_header name) VUndefined) /\
  (forall name,
      (forall pre' c', any_char c' = true ->
                       in_folder folderpath name
                         <> (pre' ++ String c' "py")%string /\
                       in_folder folderpath name
                         <> (pre' ++ String c' "json")%string) ->
      answer (NewFile folderpath) name =
      setFile (in_folder folderpath name) "" VUndefined).
Proof.
  intros Hc. split; [|split].
  - destruct (in_folder_suffix folderpath pre (String c "json")) as [p Hp].
    simpl. rewrite Hp. unfold new_file_contents.
    rewrite (test_any_then_suffix "json" p c Hc).
    destruct (test_any_then "py" (p ++ String c "json")); reflexivity.
  - destruct (in_folder_suffix folderpath pre (String c "py")) as [p Hp].
    simpl. rewrite Hp. unfold new_file_contents.
    rewrite (test_any_then_suffix "py" p c Hc), suffix_py_not_json.
    reflexivity.
  - intros name Hn. simpl. unfold new_file_contents.
    destruct (test_any_then "json" (in_folder folderpath name)) eqn:Ej.
    + apply test_any_then_inv in Ej. destruct Ej as (p & x & H & Hx).
      destruct (Hn p x Hx) as [_ Hne]. contradiction.
    + destruct (test_any_then "py" (in_folder folderpath name)) eqn:Ep;
        [|reflexivity].
      apply test_any_then_inv in Ep. destruct Ep as (p & x & H & Hx).
      destruct (Hn p x Hx) as [Hne _]. contradiction.
Qed.

Lemma updateListeners_frame (s : state) :
  let s' := snd (fst (updateListeners s)) in
  subscribers s' = subscribers s /\
  outstream_socket s' = outstream_socket s /\
  publisher_socket s' = publisher_socket s /\
  pending s' = pending s /\
  sockets s' = sockets s /\
  lookups (snd (updateListeners s)) = [].
Proof.
  unfold updateListeners.
  pose proof (update_loop_lookups (for_in (subscribers s)) (topic_global s))
    as H.
  destruct (update_loop (for_in (subscribers s)) (topic_global s))
    as [[c g] tr].
  simpl in *. auto 10.
Qed.

Lemma updateListeners_inv (s : state) :
  reachable_inv s -> reachable_inv (snd (fst (updateListeners s))).
Proof.
  unfold updateListeners.
  destruct (update_loop (for_in (subscribers s)) (topic_global s))
    as [[c g] tr].
  intros [Ho Hp Hh]. constructor; simpl; assumption.
Qed.

Lemma updateListeners_calls (s : state) (f : nat) (a : list value) :
  In (f, a) (calls (snd (updateListeners s))) -> a = [].
Proof.
  unfold updateListeners.
  pose proof (update_loop_calls (for_in (subscribers s)) (topic_global s) f a)
    as H.
  destruct (update_loop (for_in (subscribers s)) (topic_global s))
    as [[c g] tr].
  simpl in *. intros Hin. exact (proj1 (H Hin)).
Qed.

(** X12: [runModel] prints what the run has returned by a second request:
    its answer sends the command [print "..."] through [issueCommand]
    without a callback, and the answer to that command refreshes the
    listeners; a failure of the run sends and refreshes nothing.  Of the
    line breaks in the output only the first is written as backslash-n:
    what follows it is sent as it is. *)
Theorem runModel_prints_output (output text : string) (s : state) :
  exists r,
    runModel = [Ajax r] /\
    respond (success r) output s =
      (Normal, s, [],
       issueCommand ("print " ++ quote ++ escape_newline output ++ quote)
                    VUndefined VUndefined) /\
    respond (error r) text s = (Normal, s, [], []) /\
    (forall r', In (Ajax r')
                   (issueCommand
                      ("print " ++ quote ++ escape_newline output ++ quote)
                      VUndefined VUndefined) ->
                url r' = "command" /\
                respond (success r') text s =
                (let '(c, s', tr) := updateListeners s in (c, s', tr, []))) /\
    (~ In newline (chars output) -> escape_newline output = output) /\
    (forall pre post,
        output = (pre ++ String newline post)%string ->
        ~ In newline (chars pre) ->
        escape_newline output =
        (pre ++ String backslash (String "n" post))%string).
Proof.
  eexists. split; [reflexivity|]. simpl.
  split; [reflexivity|]. split; [reflexivity|]. split; [|split].
  - intros r' [H|[]]. inversion H; subst. split; reflexivity.
  - apply escape_newline_fixed.
  - intros pre post -> Hpre. apply escape_newline_first; exact Hpre.
Qed.

(** X13: the answer to [issueCommand], [importFile] and [addComponent]
    first calls the callback of the method with the text of the answer, if
    it is a function, and then refreshes the listeners.  When the callback
    raises, the listeners are not refreshed; when it is not a function, it
    is skipped without a warning and the listeners are refreshed. *)
Theorem callback_runs_before_refresh
        (has_util : string -> bool) (cmd filepath typepath name : string)
        (parent : option string) (callback errorHandler : value)
        (r : request) (text : string) (s : state) :
  In (Ajax r) (issueCommand cmd callback errorHandler
               ++ importFile filepath callback errorHandler
               ++ addComponent has_util typepath name parent callback) ->
  (forall f, callback = VFunction f -> throws f [VString text] = false ->
             respond (success r) text s =
             (let '(c, s', tr) := updateListeners s in
              (c, s', Call f [VString text] :: tr, []))) /\
  (forall f, callback = VFunction f -> throws f [VString text] = true ->
             respond (success r) text s =
             (Throw (Raised f), s, [Call f [VString text]], [])) /\
  (is_function callback = false ->
   respond (success r) text s =
   (let '(c, s', tr) := updateListeners s in (c, s', tr, []))).
Proof.
  intros Hin.
  assert (Hs : success r = CallbackThenRefresh callback).
  { unfold issueCommand, importFile, issueCommand, addComponent in Hin.
    destruct (contains "driver" typepath && has_util ("$" ++ name)%string);
      simpl in Hin;
      repeat (destruct Hin as [Hin|Hin];
              [try discriminate; inversion Hin; reflexivity|]);
      destruct Hin. }
  rewrite Hs. split; [|split].
  - intros f -> Hf. simpl. rewrite Hf. reflexivity.
  - intros f -> Hf. simpl. rewrite Hf. reflexivity.
  - intros Hc. destruct callback; try reflexivity. discriminate.
Qed.

(** X14: [removeFile] refreshes the listeners when the request fails just
    as when it succeeds.  [setFile], [createFolder] and [execFile] refresh
    them on success only: on failure no code of Model.js runs. *)
Theorem removeFile_refreshes_on_failure
        (filepath contents : string) (errorHandler : value) (r : request)
        (text text' : string) (s : state) :
  (In (Ajax r) (removeFile filepath) ->
   respond (success r) text s =
     (let '(c, s', tr) := updateListeners s in (c, s', tr, [])) /\
   respond (error r) text' s = respond (success r) text s) /\
  (In (Ajax r) (setFile filepath contents errorHandler
                ++ createFolder filepath errorHandler
                ++ execFile filepath) ->
   respond (success r) text s =
     (let '(c, s', tr) := updateListeners s in (c, s', tr, [])) /\
   respond (error r) text' s = (Normal, s, [], [])).
Proof.
  split.
  - intros [H|[]]. inversion H; subst. split; reflexivity.
  - intros Hin. simpl in Hin.
    repeat (destruct Hin as [Hin|Hin];
            [inversion Hin; subst; split; reflexivity|]).
    destruct Hin.
Qed.

Ltac case_if :=
  match goal with
  | |- context [if ?b then _ else _] => destruct b eqn:?
  | H : context [if ?b then _ else _] |- _ => destruct b eqn:?
  end.

Lemma perform_urls (has_util : string -> bool) (c : call) (u : string) :
  In u (urls (perform has_util c)) -> u <> "outstream" /\ u <> "pubstream".
Proof.
  destruct c; simpl;
    unfold getTypes, getWorkflow, getStructure, getComponents, getComponent,
           getConnections, getFiles, getFile, addComponent;
    repeat case_if; simpl;
    try (intros [<-|[]]; split; discriminate);
    intros [].
Qed.

Lemma respond_actions (r : reaction) (text : string) (s : state) :
  snd (respond r text s) =
  match r with
  | PrintOutput =>
      issueCommand ("print " ++ quote ++ escape_newline text ++ quote)
                   VUndefined VUndefined
  | _ => []
  end.
Proof.
  destruct r as [h| |cb|cb| | |]; unfold respond; try destruct cb;
    try (destruct (throws f [VString text]));
    try (destruct (updateListeners s) as [[? ?] ?]); reflexivity.
Qed.

(** X15: no request/response method looks up the address of a channel.
    Whatever the call and its arguments, the requests it sends, at once,
    after a prompt, or in answer to a response, go to addresses other than
    "outstream" and "pubstream". *)
Theorem facade_never_looks_up_a_channel
        (has_util : string -> bool) (c : call) (k : prompt)
        (name text : string) (r : reaction) (s : state) (u : string) :
  In u (urls (perform has_util c)
        ++ urls (answer k name)
        ++ urls (snd (respond r text s))) ->
  u <> "outstream" /\ u <> "pubstream".
Proof.
  intros Hin. apply in_app_or in Hin. destruct Hin as [Hin|Hin].
  - eapply perform_urls; exact Hin.
  - apply in_app_or in Hin. destruct Hin as [Hin|Hin].
    + destruct k; simpl in Hin; destruct Hin as [<-|[]]; split; discriminate.
    + rewrite respond_actions in Hin.
      destruct r; simpl in Hin; try (destruct Hin as [<-|[]]);
        try (destruct Hin); split; discriminate.
Qed.

(** X16: the answers to the requests leave the subscriptions and the
    channels alone.  Whatever member of whatever request jQuery calls, the
    registry, the two flags, the pending lookups and the sockets are as
    before, no lookup is sent, the invariant of the reachable states is
    kept, and every callback that is called gets no argument or the text
    of the answer. *)
Theorem respond_keeps_the_dispatcher (r : reaction) (text : string)
        (s : state) :
  let s' := snd (fst (fst (respond r text s))) in
  let tr := snd (fst (respond r text s)) in
  subscribers s' = subscribers s /\
  outstream_socket s' = outstream_socket s /\
  publisher_socket s' = publisher_socket s /\
  pending s' = pending s /\
  sockets s' = sockets s /\
  lookups tr = [] /\
  (reachable_inv s -> reachable_inv s') /\
  (forall f a, In (f, a) (calls tr) -> a = [] \/ a = [VString text]).
Proof.
  pose proof (updateListeners_frame s) as Hf.
  pose proof (updateListeners_inv s) as Hi.
  pose proof (updateListeners_calls s) as Hc.
  simpl in Hf, Hi.
  destruct (updateListeners s) as [[c s1] tr0] eqn:E. simpl in Hf, Hi, Hc.
  destruct Hf as (H1 & H2 & H3 & H4 & H5 & H6).
  assert (Hc0 : forall f a, In (f, a) (calls tr0) ->
                            a = [] \/ a = [VString text])
    by (intros f a H; left; exact (Hc f a H)).
  assert (Hnone : forall f a, In (f, a) (calls []) ->
                              a = [] \/ a = [VString text])
    by (intros f a []).
  assert (Hone : forall g f a, In (f, a) (calls [Call g [VString text]]) ->
                               a = [] \/ a = [VString text])
    by (intros g f a [H|[]]; inversion H; auto).
  assert (Hcons : forall g f a,
             In (f, a) (calls (Call g [VString text] :: tr0)) ->
             a = [] \/ a = [VString text])
    by (intros g f a [H|H]; [inversion H; auto | exact (Hc0 f a H)]).
  destruct r as [h| |cb|cb| | |]; unfold respond; rewrite ?E;
    try destruct cb; rewrite ?E;
    try (destruct (throws f [VString text])); rewrite ?E;
    cbn [fst snd];
    repeat match goal with |- _ /\ _ => split end; auto;
    first [apply Hone | apply Hcons].
Qed.

(** X17: the eight query methods send nothing when their callback is not
    a function; and whatever the call, a success handler that a method
    hands on to jQuery is a function, except in [setConnections], which
    does not test its callback, and in [exit], which has none. *)
Theorem queries_need_a_callback
        (has_util : string -> bool) (callback errorHandler : value)
        (pathname name filepath : string) (structure : option string)
        (src_name dst_name : value) :
  is_function callback = false ->
  getTypes callback errorHandler = [] /\
  getWorkflow pathname callback errorHandler = [] /\
  getStructure structure callback errorHandler = [] /\
  getComponents callback errorHandler = [] /\
  getComponent name callback errorHandler = [] /\
  getConnections pathname src_name dst_name callback errorHandler = [] /\
  getFiles callback errorHandler = [] /\
  getFile filepath callback errorHandler = [] /\
  (forall c r h,
      In (Ajax r) (perform has_util c) -> success r = Given h ->
      match c with
      | SetConnections _ _ _ _ _ _ | Exit => True
      | _ => is_function h = true
      end).
Proof.
  intros Hc.
  unfold getTypes, getWorkflow, getStructure, getComponents, getComponent,
         getConnections, getFiles, getFile.
  rewrite Hc. simpl. repeat split.
  intros c r h Hin Hs.
  destruct c; simpl in Hin |- *; auto;
    unfold getTypes, getWorkflow, getStructure, getComponents, getComponent,
           getConnections, getFiles, getFile, addComponent in Hin;
    repeat case_if; simpl in Hin;
    try (destruct Hin as [Hin|[]]; inversion Hin; subst; simpl in Hs;
         try discriminate; inversion Hs; subst);
    try (destruct Hin);
    match goal with
    | H : negb (is_function ?x) = false |- is_function ?x = true =>
        destruct (is_function x); [reflexivity | discriminate H]
    end.
Qed.

Lemma step_closed_channels (o : op) (s : state) :
  let s' := snd (fst (step o s)) in
  (outstream_socket s = true ->
   outstream_socket s' = true /\ output_channels s' <= output_channels s) /\
  (publisher_socket s = true ->
   publisher_socket s' = true /\
   publisher_channels s' <= publisher_channels s).
Proof.
  destruct o as [t v| |k addr|k|k data]; simpl.
  - destruct (lookup (subscribers s) t) as [l|] eqn:El.
    + rewrite (addListener_existing _ v _ _ El). simpl. auto.
    + destruct (inherited t) eqn:Ei.
      * rewrite addListener_inherited by assumption. auto.
      * rewrite addListener_new by assumption.
        unfold output_channels, publisher_channels. simpl.
        split; intros Hf; rewrite Hf; rewrite !filter_app, !length_app;
          destruct (t =? outstream_topic), (outstream_socket s),
                   (publisher_socket s); simpl; split; try reflexivity;
          try discriminate; lia.
  - unfold updateListeners.
    destruct (update_loop (for_in (subscribers s)) (topic_global s))
      as [[c g] tr].
    simpl. auto.
  - unfold lookup_success.
    destruct (nth_error (pending s) k) as [[u h]|] eqn:En; [|auto].
    unfold output_channels, publisher_channels. simpl.
    rewrite !filter_app, !length_app.
    rewrite (filter_remove_nth is_output_handler k _ _ En).
    rewrite (filter_remove_nth is_publisher_handler k _ _ En).
    unfold is_output_handler, is_publisher_handler. simpl.
    destruct h; simpl; split; intros Hf; split; auto; lia.
  - unfold lookup_failure.
    destruct (nth_error (pending s) k) as [[u h]|] eqn:En; [|auto].
    unfold output_channels, publisher_channels. simpl.
    rewrite !filter_app, !length_app.
    rewrite (filter_remove_nth is_output_handler k _ _ En).
    rewrite (filter_remove_nth is_publisher_handler k _ _ En).
    split; intros Hf; split; auto; lia.
  - unfold socket_message.
    destruct (nth_error (sockets s) k) as [[u [t|]]|];
      [destruct (handle_output t data s)
      |destruct (handle_message data s)|]; simpl; auto.
Qed.

Lemma run_closed_channels (ops : list op) (s : state) :
  (outstream_socket s = true ->
   output_channels (fst (run ops s)) <= output_channels s) /\
  (publisher_socket s = true ->
   publisher_channels (fst (run ops s)) <= publisher_channels s).
Proof.
  revert s. induction ops as [|o ops IH]; intros s; [split; auto|].
  pose proof (step_closed_channels o s) as Hs. simpl in *.
  destruct (step o s) as [[c s1] tr1]. simpl in Hs.
  specialize (IH s1). destruct (run ops s1) as [s2 tr2]. simpl in *.
  destruct Hs as [Ho Hp]. destruct IH as [IHo IHp].
  split; intros Hf.
  - destruct (Ho Hf) as [H1 H2]. specialize (IHo H1). lia.
  - destruct (Hp Hf) as [H1 H2]. specialize (IHp H1). lia.
Qed.

(** X18: a lookup that has failed is final.  In a state where the flag
    of a channel is set and neither a request nor a socket of that channel
    is left, as after the error answer to its lookup, nothing that follows
    brings one back: no registration, no refresh and no answer creates a
    request or a socket for it, and its address is not looked up again.
    Its subscribers stay registered and unserved. *)
Theorem failed_lookup_is_final (ops more : list op) :
  let s := fst (run ops initial) in
  (outstream_socket s = true -> output_channels s = 0 ->
   output_channels (fst (run more s)) = 0 /\
   opens "outstream" (snd (run more s)) = 0) /\
  (publisher_socket s = true -> publisher_channels s = 0 ->
   publisher_channels (fst (run more s)) = 0 /\
   opens "pubstream" (snd (run more s)) = 0).
Proof.
  intros s.
  pose proof (run_inv ops initial initial_inv) as Hinv. fold s in Hinv.
  destruct (run_closed_channels more s) as [Ho Hp].
  split; intros Hf Hz.
  - specialize (Ho Hf). split; [lia|].
    destruct (run_outstream more s Hinv) as [H1 _].
    rewrite Hf in H1. exact H1.
  - specialize (Hp Hf). split; [lia|].
    destruct (run_publisher more s Hinv) as [H1 _].
    rewrite Hf in H1. exact H1.
Qed.

Lemma prefix_append (p post : string) : prefix p (p ++ post) = true.
Proof.
  induction p as [|a p IH]; simpl; [destruct post; reflexivity|].
  destruct (ascii_dec a a); [exact IH | contradiction].
Qed.

Lemma prefix_inv (p s : string) :
  prefix p s = true -> exists post, s = (p ++ post)%string.
Proof.
  revert s. induction p as [|a p IH]; intros s.
  - intros _. exists s. reflexivity.
  - destruct s as [|b s]; simpl; [discriminate|].
    destruct (ascii_dec a b) as [->|]; [|discriminate].
    intros H. destruct (IH s H) as [post ->]. exists post. reflexivity.
Qed.

Lemma contains_unfold (pattern s : string) :
  contains pattern s =
  prefix pattern s ||
  match s with
  | EmptyString => false
  | String _ s' => contains pattern s'
  end.
Proof. destruct s; reflexivity. Qed.

Lemma contains_append (pattern pre post : string) :
  contains pattern (pre ++ pattern ++ post) = true.
Proof.
  induction pre as [|a pre IH].
  - simpl. rewrite contains_unfold, prefix_append. reflexivity.
  - change (contains pattern (String a pre ++ pattern ++ post))
      with (prefix pattern (String a (pre ++ pattern ++ post))
            || contains pattern (pre ++ pattern ++ post)).
    rewrite IH. apply orb_true_r.
Qed.

Lemma contains_inv (pattern s : string) :
  contains pattern s = true ->
  exists pre post, s = (pre ++ pattern ++ post)%string.
Proof.
  induction s as [|a s IH].
  - rewrite contains_unfold, orb_false_r. intros H.
    destruct (prefix_inv _ _ H) as [post Hp]. exists EmptyString, post.
    exact Hp.
  - rewrite contains_unfold.
    intros H. apply orb_true_iff in H. destruct H as [H|H].
    + destruct (prefix_inv _ _ H) as [post Hp]. exists EmptyString, post.
      exact Hp.
    + destruct (IH H) as (pre & post & ->). exists (String a pre), post.
      reflexivity.
Qed.

(** X19: [addComponent] sends no request for a type whose path holds
    "driver" anywhere when [openmdao.Util] has a member named "$" and the
    component name: it calls that member and returns, so that the callback
    is never called and the listeners are never refreshed.  In every other
    case it posts to "component/" and the name, with the parent, or the
    empty string when there is none. *)
Theorem addComponent_driver_shortcut
        (has_util : string -> bool) (typepath name : string)
        (parent : option string) (callback : value) :
  (forall pre post,
      typepath = (pre ++ "driver" ++ post)%string ->
      has_util ("$" ++ name)%string = true ->
      addComponent has_util typepath name parent callback =
      [UtilCall ("$" ++ name)]) /\
  (has_util ("$" ++ name)%string = false \/
   (forall pre post, typepath <> (pre ++ "driver" ++ post)%string) ->
   addComponent has_util typepath name parent callback =
   [Ajax (mkRequest (Some POST) ("component/" ++ name) None
                    [("type", VString typepath);
                     ("parent",
                      VString (match parent with Some p => p | None => "" end))]
                    (CallbackThenRefresh callback) (Given VUndefined))]).
Proof.
  unfold addComponent. split.
  - intros pre post -> Hu. rewrite contains_append, Hu. reflexivity.
  - intros [Hu|Hn].
    + rewrite Hu, andb_false_r. reflexivity.
    + destruct (contains "driver" typepath) eqn:E; [|reflexivity].
      apply contains_inv in E. destruct E as (pre & post & E).
      exfalso. exact (Hn pre post E).
Qed.

End Dispatcher.

(** * Instances *)

Lemma fan_out_in_registration_order_witness :
  inherited "[" = false /\
  registered "[" bracket_run = map VFunction [1; 0; 1] /\
  [1; 0; 1] <> [] /\
  let s := fst (run never_throws any_text_parses bracket_run initial) in
  handle_output never_throws "[" "line" s =
    (Normal, [Call 1 [VString "line"]; Call 0 [VString "line"];
              Call 1 [VString "line"]]) /\
  handle_message never_throws any_text_parses foo_frame s =
    (Normal, [Call 1 [VString foo_frame]; Call 0 [VString foo_frame];
              Call 1 [VString foo_frame]]).
Proof.
  assert (H1 : inherited "[" = false) by reflexivity.
  assert (H2 : registered "[" bracket_run = map VFunction [1; 0; 1])
    by reflexivity.
  assert (H3 : [1; 0; 1] <> []) by discriminate.
  split; [exact H1|]. split; [exact H2|]. split; [exact H3|].
  pose proof (fan_out_in_registration_order never_throws any_text_parses
                bracket_run "[" [1; 0; 1] H1 H2 H3) as H.
  destruct H as (_ & Hout & Hmsg & _). split.
  - apply (Hout "line"). intros f _. reflexivity.
  - apply (Hmsg foo_frame); [reflexivity | reflexivity |].
    intros f _. reflexivity.
Defined.

(** C3 as stated fails: callback 0 raises, and callback 1, registered
    after it under the same topic, is not called: neither by the output
    handler nor by [updateListeners]. *)
Lemma exception_isolation_counterexample :
  let s := fst (run zero_throws any_text_parses
                    [AddListener outstream_topic (VFunction 0);
                     AddListener outstream_topic (VFunction 1);
                     AddListener "status" (VFunction 0);
                     AddListener "status" (VFunction 1)] initial) in
  lookup (subscribers s) outstream_topic = Some [VFunction 0; VFunction 1] /\
  lookup (subscribers s) "status" = Some [VFunction 0; VFunction 1] /\
  zero_throws 0 [VString "line"] = true /\
  handle_output zero_throws outstream_topic "line" s =
    (Throw (Raised 0), [Call 0 [VString "line"]]) /\
  ~ In (1, [VString "line"])
       (calls (snd (handle_output zero_throws outstream_topic "line" s))) /\
  snd (updateListeners zero_throws s) = [Call 0 []] /\
  ~ In (1, []) (calls (snd (updateListeners zero_throws s))).
Proof.
  simpl. repeat split; try reflexivity.
  - intros [H|[]]. discriminate.
  - intros [H|[]]. discriminate.
Qed.

Lemma callback_exception_ends_fan_out_witness :
  let s := fst (run zero_throws any_text_parses index_run initial) in
  lookup (subscribers s) "1" =
    Some ([VNumber 42] ++ VFunction 0 :: [VFunction 1]) /\
  for_in (subscribers s) =
    [] ++ ("1", [VNumber 42] ++ VFunction 0 :: [VFunction 1])
       :: [("status", [VFunction 3])] /\
  handle_output zero_throws "1" "line" s =
    (Throw (Raised 0),
     [DebugError "1" (VNumber 42); Call 0 [VString "line"]]) /\
  fst (fst (updateListeners zero_throws s)) = Throw (Raised 0) /\
  snd (updateListeners zero_throws s) =
    [DebugError "1" (VNumber 42); Call 0 []].
Proof.
  intros s.
  assert (H1 : lookup (subscribers s) "1" =
               Some ([VNumber 42] ++ VFunction 0 :: [VFunction 1]))
    by reflexivity.
  assert (H2 : for_in (subscribers s) =
               [] ++ ("1", [VNumber 42] ++ VFunction 0 :: [VFunction 1])
                  :: [("status", [VFunction 3])]) by reflexivity.
  split; [exact H1|]. split; [exact H2|].
  pose proof (callback_exception_ends_fan_out zero_throws any_text_parses
                s "1" [VNumber 42] 0 [VFunction 1] H1) as H.
  destruct H as (Hout & _ & Hupd). split.
  - apply (Hout "line"); [|reflexivity].
    intros g Hg. simpl in Hg. destruct Hg as [Hg|[]]. discriminate.
  - apply (Hupd [] [("status", [VFunction 3])] H2);
      [discriminate | | |reflexivity].
    + intros t cbs g [].
    + intros g Hg. simpl in Hg. destruct Hg as [Hg|[]]. discriminate.
Defined.

Lemma outstream_channel_opened_once_witness :
  let pre := [AddListener "status" (VFunction 3); UpdateListeners] in
  let post := [LookupSuccess 1 "ws://localhost/out";
               AddListener outstream_topic (VFunction 1);
               SocketMessage 0 "line"] in
  let s1 := fst (run never_throws any_text_parses pre initial) in
  let s2 := snd (fst (step never_throws any_text_parses
                           (AddListener outstream_topic (VFunction 0)) s1)) in
  outstream_run = pre ++ AddListener outstream_topic (VFunction 0) :: post /\
  existsb (registers_under outstream_topic) pre = false /\
  opens "outstream"
        (snd (run never_throws any_text_parses outstream_run initial)) = 1 /\
  opens "outstream" (snd (run never_throws any_text_parses pre initial)) = 0 /\
  opens "outstream"
        (snd (step never_throws any_text_parses
                   (AddListener outstream_topic (VFunction 0)) s1)) = 1 /\
  opens "outstream" (snd (run never_throws any_text_parses post s2)) = 0.
Proof.
  intros pre post s1 s2.
  assert (H1 : outstream_run =
               pre ++ AddListener outstream_topic (VFunction 0) :: post)
    by reflexivity.
  assert (H2 : existsb (registers_under outstream_topic) pre = false)
    by reflexivity.
  split; [exact H1|]. split; [exact H2|].
  pose proof (outstream_channel_opened_once never_throws any_text_parses
                outstream_run) as [Hcount Hfirst].
  split; [exact Hcount|].
  exact (Hfirst pre (VFunction 0) post H1 H2).
Defined.

Lemma publisher_channel_opened_once_witness :
  let pre := [AddListener "status" (VFunction 3); UpdateListeners] in
  let post := [LookupSuccess 1 "ws://localhost/out";
               AddListener outstream_topic (VFunction 1);
               SocketMessage 0 "line"] in
  let s1 := fst (run never_throws any_text_parses pre initial) in
  let s2 := snd (fst (step never_throws any_text_parses
                           (AddListener outstream_topic (VFunction 0)) s1)) in
  inherited outstream_topic = false /\
  opens "pubstream"
        (snd (run never_throws any_text_parses outstream_run initial)) = 1 /\
  opens "pubstream"
        (snd (step never_throws any_text_parses
                   (AddListener outstream_topic (VFunction 0)) s1)) = 0 /\
  opens "pubstream" (snd (run never_throws any_text_parses post s2)) = 0.
Proof.
  intros pre post s1 s2.
  pose proof (publisher_channel_opened_once never_throws any_text_parses
                outstream_run) as [Hcount Hfirst].
  split; [reflexivity|]. split; [exact Hcount|].
  exact (Hfirst pre outstream_topic (VFunction 0) post eq_refl eq_refl).
Defined.

Lemma updateListeners_skips_output_topic_witness :
  let s := fst (run never_throws any_text_parses refresh_run initial) in
  subscribers s =
    [("status", [VFunction 3]); (outstream_topic, [VFunction 0]);
     ("10", [VFunction 2]); ("9", [VFunction 1])] /\
  fst (fst (updateListeners never_throws s)) = Normal /\
  snd (updateListeners never_throws s) = [Call 1 []; Call 2 []; Call 3 []].
Proof.
  intros s. split; [reflexivity|].
  pose proof (updateListeners_skips_output_topic never_throws s)
    as [_ Hquiet].
  destruct Hquiet as (Hc & Htr & _).
  - intros t cbs f _ _ _. reflexivity.
  - split; [exact Hc | exact Htr].
Defined.

Lemma no_lookup_without_addListener_witness :
  existsb is_addListener idle_run = false /\
  lookups (snd (run never_throws any_text_parses idle_run initial)) = [] /\
  sockets (fst (run never_throws any_text_parses idle_run initial)) = [].
Proof.
  assert (H : existsb is_addListener idle_run = false) by reflexivity.
  split; [exact H|].
  destruct (no_lookup_without_addListener never_throws any_text_parses
              idle_run H) as (Hl & _ & _ & Hs & _).
  split; [exact Hl | exact Hs].
Defined.

Lemma output_handler_finds_its_list_witness :
  let s := fst (run never_throws any_text_parses outstream_run initial) in
  outstream_socket s = true /\
  nth_error (sockets s) 0 =
    Some ("ws://localhost/out", HandleOutput outstream_topic) /\
  (exists l, lookup (subscribers s) outstream_topic = Some l) /\
  fst (fst (step never_throws any_text_parses (SocketMessage 0 "line") s))
    <> Throw TypeError.
Proof.
  intros s.
  assert (H1 : outstream_socket s = true) by reflexivity.
  assert (H2 : nth_error (sockets s) 0 =
               Some ("ws://localhost/out", HandleOutput outstream_topic))
    by reflexivity.
  split; [exact H1|]. split; [exact H2|].
  destruct (output_handler_finds_its_list never_throws any_text_parses
              outstream_run) as [Hlist Hsock].
  split; [exact (Hlist H1)|].
  exact (proj2 (proj2 (Hsock 0 "ws://localhost/out" outstream_topic "line"
                             H2))).
Defined.

(** * Instances of the further properties *)

Lemma subscriptions_are_permanent_witness :
  let s := fst (run never_throws any_text_parses bracket_run initial) in
  lookup (subscribers s) "[" = Some [VFunction 1; VFunction 0; VFunction 1] /\
  exists l',
    lookup (subscribers
              (fst (run never_throws any_text_parses
                        [AddListener "[" VNull; UpdateListeners] s))) "["
    = Some ([VFunction 1; VFunction 0; VFunction 1] ++ l').
Proof.
  intros s.
  assert (H : lookup (subscribers s) "["
              = Some [VFunction 1; VFunction 0; VFunction 1]) by reflexivity.
  split; [exact H|].
  destruct (subscriptions_are_permanent never_throws any_text_parses
              [AddListener "[" VNull; UpdateListeners] s "[" _ H)
    as (l' & Hl & _).
  exists l'. exact Hl.
Defined.

Lemma addListener_contract_witness :
  inherited "status" = false /\
  fst (fst (addListener "status" (VNumber 42) initial)) = Normal /\
  lookup (subscribers (snd (fst (addListener "status" (VNumber 42) initial))))
         "status" = Some [VNumber 42].
Proof.
  assert (H : inherited "status" = false) by reflexivity.
  split; [exact H|].
  destruct (addListener_contract "status" (VNumber 42) initial H)
    as (H1 & H2 & _).
  split; [exact H1 | exact H2].
Defined.

Lemma unrouted_publisher_frame_is_dropped_witness :
  let s := fst (run never_throws any_text_parses mixed_run initial) in
  any_text_parses foo_frame = false /\
  lookup (subscribers s) (index0 foo_frame) = None /\
  nth_error (sockets s) 0 = Some ("ws://localhost/pub", HandleMessage) /\
  step never_throws any_text_parses (SocketMessage 0 foo_frame) s =
  (Normal, s, []).
Proof.
  intros s.
  assert (H1 : any_text_parses foo_frame = false) by reflexivity.
  assert (H2 : lookup (subscribers s) (index0 foo_frame) = None)
    by reflexivity.
  assert (H3 : nth_error (sockets s) 0
               = Some ("ws://localhost/pub", HandleMessage)) by reflexivity.
  split; [exact H1|]. split; [exact H2|]. split; [exact H3|].
  exact (unrouted_publisher_frame_is_dropped never_throws any_text_parses
           foo_frame s 0 "ws://localhost/pub" H1 H2 H3).
Defined.

Lemma output_handler_skips_invalid_entries_witness :
  let s := fst (run never_throws any_text_parses mixed_run initial) in
  lookup (subscribers s) outstream_topic
    = Some [VFunction 0; VNumber 42; VFunction 1] /\
  calls (snd (handle_output never_throws outstream_topic "line" s)) =
    [(0, [VString "line"]); (1, [VString "line"])] /\
  warnings (snd (handle_output never_throws outstream_topic "line" s)) =
    [(outstream_topic, VNumber 42)].
Proof.
  intros s.
  assert (H : lookup (subscribers s) outstream_topic
              = Some [VFunction 0; VNumber 42; VFunction 1]) by reflexivity.
  split; [exact H|].
  destruct (output_handler_skips_invalid_entries never_throws
              outstream_topic "line" s _ H (fun _ _ => eq_refl))
    as (_ & Hc & Hw).
  split; [exact Hc | exact Hw].
Defined.

Lemma publisher_warnings_name_last_refreshed_topic_witness :
  let s := fst (run never_throws any_text_parses
                    [AddListener "status" (VFunction 2);
                     AddListener "7" (VNumber 42)] initial) in
  for_in (subscribers s) =
    [("7", [VNumber 42])] ++ [("status", [VFunction 2])] /\
  fst (fst (updateListeners never_throws s)) = Normal /\
  topic_global (snd (fst (updateListeners never_throws s))) = Some "status" /\
  fst (handle_message never_throws any_text_parses "7"
                      (snd (fst (updateListeners never_throws s))))
    <> Throw ReferenceError /\
  warnings (snd (handle_message never_throws any_text_parses "7"
                   (snd (fst (updateListeners never_throws s))))) =
    [("status", VNumber 42)].
Proof.
  intros s.
  assert (H1 : for_in (subscribers s)
               = [("7", [VNumber 42])] ++ [("status", [VFunction 2])])
    by reflexivity.
  assert (H2 : fst (fst (updateListeners never_throws s)) = Normal)
    by reflexivity.
  split; [exact H1|]. split; [exact H2|].
  destruct (publisher_warnings_name_last_refreshed_topic
              never_throws any_text_parses s _ "status" _ "7" H1 H2)
    as (Ht & _ & Hr & _).
  split; [exact Ht|]. split; [exact Hr | reflexivity].
Defined.

Lemma at_most_one_channel_each_witness :
  let s := fst (run never_throws any_text_parses outstream_run initial) in
  outstream_socket s = true /\
  output_channels s <= 1 /\
  opens "outstream"
        (snd (run never_throws any_text_parses
                  [LookupFailure 0; AddListener outstream_topic VNull] s)) = 0.
Proof.
  intros s.
  assert (H : outstream_socket s = true) by reflexivity.
  split; [exact H|].
  destruct (at_most_one_channel_each never_throws any_text_parses
              outstream_run) as (Ho & _ & Hmore & _).
  split; [exact Ho|].
  exact (proj2 (Hmore [LookupFailure 0; AddListener outstream_topic VNull] H)).
Defined.

Lemma only_registered_functions_are_called_witness :
  In (0, [VString "line"])
     (calls (snd (run never_throws any_text_parses outstream_run initial))) /\
  (exists T, In (AddListener T (VFunction 0)) outstream_run) /\
  ([VString "line"] = [] \/
   exists d, In d (frames outstream_run) /\ [VString "line"] = [VString d]).
Proof.
  assert (H : In (0, [VString "line"])
                 (calls (snd (run never_throws any_text_parses
                                  outstream_run initial))))
    by (simpl; right; left; reflexivity).
  split; [exact H|].
  exact (only_registered_functions_are_called never_throws any_text_parses
           outstream_run 0 [VString "line"] H).
Defined.

Lemma file_addresses_witness :
  urls (getFile "/dir/a.txt" (VFunction 0) VUndefined) =
  urls (setFile "dir/a.txt" "text" VUndefined) /\
  urls (setFile "dir/a.txt" "text" VUndefined) <>
  urls (getFile "dir/a.txt" (VFunction 0) VUndefined).
Proof.
  destruct (file_addresses "dir/a.txt" "text" 0 VUndefined VUndefined)
    as (_ & _ & _ & _ & Hne & Heq & _).
  split; [exact Heq | exact Hne].
Defined.

Lemma execFile_path_witness :
  "dir/run.py" = String "d" "ir/run.py" /\
  exec_path "dir/run.py" = slashes "dir/run.py" /\
  exec_path "//dir/run.py" = "/dir/run.py".
Proof.
  split; [reflexivity|].
  destruct (execFile_path "dir/run.py") as (_ & _ & _ & _ & _ & Hrel & _).
  split; [exact (Hrel "d"%char "ir/run.py" eq_refl
                      ltac:(discriminate) ltac:(discriminate))|].
  reflexivity.
Defined.

Lemma importFile_command_witness :
  importFile "pkg/sub/mod.py" (VFunction 0) VUndefined =
  issueCommand "from pkg.sub.mod import *" (VFunction 0) VUndefined.
Proof.
  exact (proj1 (importFile_command "pkg/sub" "mod" "" (VFunction 0)
                                   VUndefined)).
Defined.

Lemma newFile_contents_witness :
  any_char "p"%char = true /\
  answer (NewFile (Some "notes")) "happy" =
  setFile "notes/happy" (python_header "notes/happy") VUndefined.
Proof.
  assert (H : any_char "p"%char = true) by reflexivity.
  split; [exact H|].
  exact (proj1 (proj2 (newFile_contents (Some "notes") "ha" "p"%char H))).
Defined.

Lemma runModel_prints_output_witness :
  let output := ("a" ++ String newline ("b" ++ String newline "c"))%string in
  ~ In newline (chars "a") /\
  escape_newline output =
  ("a" ++ String backslash (String "n" ("b" ++ String newline "c")))%string.
Proof.
  intros output.
  assert (H : ~ In newline (chars "a"))
    by (simpl; intros [H|[]]; discriminate).
  split; [exact H|].
  destruct (runModel_prints_output never_throws output "" initial)
    as (r & _ & _ & _ & _ & _ & Hfirst).
  exact (Hfirst "a" ("b" ++ String newline "c")%string eq_refl H).
Defined.

Lemma callback_runs_before_refresh_witness :
  let r := mkRequest (Some POST) "command" None [("command", VString "x = 1")]
                     (CallbackThenRefresh (VFunction 0)) (Given VUndefined) in
  let s := fst (run zero_throws any_text_parses bracket_run initial) in
  In (Ajax r) (issueCommand "x = 1" (VFunction 0) VUndefined
               ++ importFile "m.py" (VFunction 0) VUndefined
               ++ addComponent (fun _ => false) "t" "c" None (VFunction 0)) /\
  zero_throws 0 [VString "ok"] = true /\
  respond zero_throws (success r) "ok" s =
  (Throw (Raised 0), s, [Call 0 [VString "ok"]], []).
Proof.
  intros r s.
  assert (H1 : In (Ajax r)
                  (issueCommand "x = 1" (VFunction 0) VUndefined
                   ++ importFile "m.py" (VFunction 0) VUndefined
                   ++ addComponent (fun _ => false) "t" "c" None
                                   (VFunction 0)))
    by (simpl; left; reflexivity).
  assert (H2 : zero_throws 0 [VString "ok"] = true) by reflexivity.
  split; [exact H1|]. split; [exact H2|].
  destruct (callback_runs_before_refresh zero_throws (fun _ => false)
              "x = 1" "m.py" "t" "c" None (VFunction 0) VUndefined r "ok" s
              H1) as (_ & Hraise & _).
  exact (Hraise 0 eq_refl H2).
Defined.

Lemma removeFile_refreshes_on_failure_witness :
  let r := mkRequest (Some DELETE) "file/a.txt" None
                     [("file", VString "/a.txt")] Refresh WarnThenRefresh in
  let s := fst (run never_throws any_text_parses bracket_run initial) in
  In (Ajax r) (removeFile "/a.txt") /\
  respond never_throws (error r) "" s = respond never_throws (success r) "" s.
Proof.
  intros r s.
  assert (H : In (Ajax r) (removeFile "/a.txt")) by (left; reflexivity).
  split; [exact H|].
  exact (proj2 (proj1 (removeFile_refreshes_on_failure never_throws
                         "/a.txt" "" VUndefined r "" "" s) H)).
Defined.

Lemma facade_never_looks_up_a_channel_witness :
  In "output"
     (urls (perform (fun _ => false) (GetOutput VUndefined VUndefined))
      ++ urls (answer (NewFolder None) "d")
      ++ urls (snd (respond never_throws PrintOutput "" initial))) /\
  "output" <> "outstream".
Proof.
  assert (H : In "output"
                 (urls (perform (fun _ => false)
                                (GetOutput VUndefined VUndefined))
                  ++ urls (answer (NewFolder None) "d")
                  ++ urls (snd (respond never_throws PrintOutput ""
                                        initial))))
    by (left; reflexivity).
  split; [exact H|].
  exact (proj1 (facade_never_looks_up_a_channel never_throws (fun _ => false)
                  (GetOutput VUndefined VUndefined) (NewFolder None) "d" ""
                  PrintOutput initial "output" H)).
Defined.

Lemma respond_keeps_the_dispatcher_witness :
  let s := fst (run never_throws any_text_parses outstream_run initial) in
  reachable_inv s /\
  reachable_inv
    (snd (fst (fst (respond never_throws (CallbackThenRefresh (VFunction 9))
                            "ok" s)))).
Proof.
  intros s.
  assert (H : reachable_inv s).
  { constructor; simpl; [reflexivity | reflexivity |].
    intros u t [Hin|[Hin|[]]]; inversion Hin; auto. }
  split; [exact H|].
  destruct (respond_keeps_the_dispatcher never_throws
              (CallbackThenRefresh (VFunction 9)) "ok" s)
    as (_ & _ & _ & _ & _ & _ & Hinv & _).
  exact (Hinv H).
Defined.

Lemma queries_need_a_callback_witness :
  is_function VUndefined = false /\
  getFile "/a.txt" VUndefined VUndefined = [] /\
  getStructure None VUndefined VUndefined = [].
Proof.
  assert (H : is_function VUndefined = false) by reflexivity.
  split; [exact H|].
  destruct (queries_need_a_callback (fun _ => false) VUndefined VUndefined
              "" "" "/a.txt" None VUndefined VUndefined H)
    as (_ & _ & Hs & _ & _ & _ & _ & Hf & _).
  split; [exact Hf | exact Hs].
Defined.

Lemma failed_lookup_is_final_witness :
  let s := fst (run never_throws any_text_parses
                    [AddListener outstream_topic (VFunction 0);
                     LookupFailure 0] initial) in
  outstream_socket s = true /\
  output_channels s = 0 /\
  output_channels
    (fst (run never_throws any_text_parses
              [AddListener outstream_topic (VFunction 1);
               LookupSuccess 0 "ws://localhost/pub";
               AddListener "status" (VFunction 2)] s)) = 0.
Proof.
  intros s.
  assert (H1 : outstream_socket s = true) by reflexivity.
  assert (H2 : output_channels s = 0) by reflexivity.
  split; [exact H1|]. split; [exact H2|].
  exact (proj1 (proj1 (failed_lookup_is_final never_throws any_text_parses
                         [AddListener outstream_topic (VFunction 0);
                          LookupFailure 0]
                         [AddListener outstream_topic (VFunction 1);
                          LookupSuccess 0 "ws://localhost/pub";
                          AddListener "status" (VFunction 2)])
                      H1 H2)).
Defined.

Lemma addComponent_driver_shortcut_witness :
  let has_util := fun n : string => (n =? "$opt")%string in
  "openmdao.lib.drivers.api.SLSQPdriver" =
    ("openmdao.lib." ++ "driver" ++ "s.api.SLSQPdriver")%string /\
  has_util "$opt" = true /\
  addComponent has_util "openmdao.lib.drivers.api.SLSQPdriver" "opt" None
               (VFunction 0) = [UtilCall "$opt"].
Proof.
  intros has_util.
  assert (H1 : "openmdao.lib.drivers.api.SLSQPdriver" =
               ("openmdao.lib." ++ "driver" ++ "s.api.SLSQPdriver")%string)
    by reflexivity.
  assert (H2 : has_util "$opt" = true) by reflexivity.
  split; [exact H1|]. split; [exact H2|].
  exact (proj1 (addComponent_driver_shortcut has_util
                  "openmdao.lib.drivers.api.SLSQPdriver" "opt" None
                  (VFunction 0))
               "openmdao.lib." "s.api.SLSQPdriver" H1 H2).
Defined.
